(** * Random-features classifier: weight generators and the estimator

    A shallow embedding of [estimator.py] (the first version of the
    estimator) and [new_version/estimator.py] (its rewrite), with the
    properties of the weight generators and of the fit / transform / score
    contract proved over it.

    Conventions.
    - A Python exception is the [Raise] branch of [result]; a computation that
      reads or changes state is a function from the state to a result and the
      state it leaves behind, so whatever was mutated before an exception was
      raised stays mutated.
    - float64 arithmetic, the generator behind [np.random], LAPACK's Cholesky
      routine and the entries of scipy's DFT matrix are the fields of the
      class [NumPy]; every theorem holds for every instance of it.
    - A 2-D array is its column count and the list of its rows, a 1-D array a
      list; sums are accumulated from left to right.
    - The libraries are the ones the code was written for: [np.complex] is
      Python's [complex] (NumPy before 1.24), and sklearn's
      [check_is_fitted(estimator, attributes)] raises its not-fitted error
      when one of the attributes does not exist.
    - A nonlinearity, a weight function and the constructor of a classifier
      are the caller's; they are taken to be functions of their arguments
      (and, for a weight function, of the global random state).
    - [clf_wrapper] is embedded for the class of its own module;
      [parallelized_clf], which hands its trials to the Dask scheduler, is
      not. *)

From Stdlib Require Import String.
From Stdlib Require Import List ZArith Lia Bool Floats Uint63.
Import ListNotations.

Set Implicit Arguments.

(** ** Exceptions and the state-and-exception monad *)

Inductive exn : Type :=
| ValueError
| TypeError
| AttributeError
| NotFittedError
| LinAlgError.

Inductive result (A : Type) : Type :=
| Ok (a : A)
| Raise (e : exn).

Arguments Ok {A} a.
Arguments Raise {A} e.

Definition Py (S A : Type) : Type := S -> result A * S.

Definition ret {S A : Type} (a : A) : Py S A := fun s => (Ok a, s).

Definition raise {S A : Type} (e : exn) : Py S A := fun s => (Raise e, s).

Definition bind {S A B : Type} (m : Py S A) (k : A -> Py S B) : Py S B :=
  fun s =>
    match m s with
    | (Ok a, s') => k a s'
    | (Raise e, s') => (Raise e, s')
    end.

Definition lift {S A : Type} (r : result A) : Py S A := fun s => (r, s).

(** Sequencing of computations that only raise. *)
Definition rbind {A B : Type} (r : result A) (k : A -> result B) : result B :=
  match r with
  | Ok a => k a
  | Raise e => Raise e
  end.

(** Reading an attribute that an object gets only later: an
    [AttributeError] while it does not exist. *)
Definition attr {A : Type} (a : option A) : result A :=
  match a with
  | Some x => Ok x
  | None => Raise AttributeError
  end.

Declare Scope py_scope.
Delimit Scope py_scope with py.
Notation "x <- m ;; k" := (bind m (fun x => k))
  (at level 61, m at next level, right associativity) : py_scope.
Notation "m ;;; k" := (bind m (fun _ => k))
  (at level 61, right associativity) : py_scope.
Notation "x <~ r ;; k" := (rbind r (fun x => k))
  (at level 61, r at next level, right associativity) : py_scope.
Open Scope py_scope.

(** ** Arrays *)

Record matrix (T : Type) : Type := Mat { ncols : nat; rows : list (list T) }.

Arguments Mat {T} ncols rows.

Section Arrays.
Context {T : Type}.

Definition nrows (A : matrix T) : nat := length (rows A).

Definition shape (A : matrix T) : nat * nat := (nrows A, ncols A).

(** The r-by-c array whose entry (i, j) is [f i j]. *)
Definition mat_init (r c : nat) (f : nat -> nat -> T) : matrix T :=
  Mat c (map (fun i => map (fun j => f i j) (seq 0 c)) (seq 0 r)).

Definition mat_get (d : T) (A : matrix T) (i j : nat) : T :=
  nth j (nth i (rows A) []) d.

Definition mat_row (A : matrix T) (i : nat) : list T := nth i (rows A) [].

Definition mat_col (d : T) (A : matrix T) (j : nat) : list T :=
  map (fun r => nth j r d) (rows A).

(** [A.T] *)
Definition transpose (d : T) (A : matrix T) : matrix T :=
  mat_init (ncols A) (nrows A) (fun i j => mat_get d A j i).

(** [np.array(rows)] for a list of 1-D arrays of one length. *)
Definition np_array (rs : list (list T)) : matrix T :=
  Mat (match rs with [] => 0 | r :: _ => length r end) rs.

(** [v.reshape(-1, 1)] *)
Definition as_column (v : list T) : matrix T := Mat 1 (map (fun x => [x]) v).

(** A 1-D array where a 2-D one is expected: one row. *)
Definition as_row (v : list T) : matrix T := Mat (length v) [v].

(** [A.flatten()], row-major. *)
Definition flatten (A : matrix T) : list T := concat (rows A).

(** [np.column_stack((u, v))] of two 1-D arrays. *)
Definition column_stack (u v : list T) : result (matrix T) :=
  if length u =? length v
  then Ok (Mat 2 (map (fun p => [fst p; snd p]) (combine u v)))
  else Raise ValueError.

(** [np.row_stack((W, w))]: [w], 1-D, becomes the last row of [W]. *)
Definition row_stack (W : matrix T) (w : list T) : result (matrix T) :=
  if ncols W =? length w
  then Ok (Mat (ncols W) (rows W ++ [w]))
  else Raise ValueError.
End Arrays.

Definition mat_map {T U : Type} (f : T -> U) (A : matrix T) : matrix U :=
  Mat (ncols A) (map (map f) (rows A)).

(** NumPy's broadcasting of one axis: equal lengths, or one of them 1. *)
Definition broadcast_dim (a b : nat) : option nat :=
  if a =? b then Some a
  else if a =? 1 then Some b
  else if b =? 1 then Some a
  else None.

(** The index read from an axis of length [a] for position [i] of the
    broadcast result. *)
Definition bidx (a i : nat) : nat := if a =? 1 then 0 else i.

Section Broadcast.
Context {T U V : Type}.
Variables (dT : T) (dU : U).
Variable op : T -> U -> V.

(** [A op B] on two 2-D arrays. *)
Definition broadcast2 (A : matrix T) (B : matrix U) : result (matrix V) :=
  match broadcast_dim (nrows A) (nrows B), broadcast_dim (ncols A) (ncols B) with
  | Some r, Some c =>
      Ok (mat_init r c (fun i j =>
            op (mat_get dT A (bidx (nrows A) i) (bidx (ncols A) j))
               (mat_get dU B (bidx (nrows B) i) (bidx (ncols B) j))))
  | _, _ => Raise ValueError
  end.

(** [a op b] on two 1-D arrays. *)
Definition broadcast1 (a : list T) (b : list U) : result (list V) :=
  match broadcast_dim (length a) (length b) with
  | Some n =>
      Ok (map (fun i => op (nth (bidx (length a) i) a dT)
                           (nth (bidx (length b) i) b dU)) (seq 0 n))
  | None => Raise ValueError
  end.
End Broadcast.

Section InPlace.
Context {T U : Type}.
Variables (dT : T) (dU : U).
Variable op : T -> U -> T.

(** [A op= B]: [B] must broadcast to the shape of [A], which is kept. *)
Definition inplace2 (A : matrix T) (B : matrix U) : result (matrix T) :=
  if ((nrows B =? nrows A) || (nrows B =? 1))
     && ((ncols B =? ncols A) || (ncols B =? 1))
  then Ok (mat_init (nrows A) (ncols A) (fun i j =>
             op (mat_get dT A i j)
                (mat_get dU B (bidx (nrows B) i) (bidx (ncols B) j))))
  else Raise ValueError.
End InPlace.

Section Dot.
Context {T : Type}.
Variables (zero : T) (add mul : T -> T -> T).

Definition inner (u v : list T) : T :=
  fold_left add (map (fun p => mul (fst p) (snd p)) (combine u v)) zero.

(** [np.dot(A, B)] and [A @ B] on 2-D arrays. *)
Definition dot (A B : matrix T) : result (matrix T) :=
  if ncols A =? nrows B
  then Ok (mat_init (nrows A) (ncols B)
             (fun i j => inner (mat_row A i) (mat_col zero B j)))
  else Raise ValueError.

(** [np.dot(A, v)] with [v] 1-D. *)
Definition dot_vec (A : matrix T) (v : list T) : result (list T) :=
  if ncols A =? length v
  then Ok (map (fun r => inner r v) (rows A))
  else Raise ValueError.
End Dot.

(** ** The numeric library *)

Class NumPy : Type := {
  (** float64 and its arithmetic *)
  F : Type;
  of_int : Z -> F;
  lit_1em5 : F;
  lit_0p1 : F;
  fadd : F -> F -> F;
  fsub : F -> F -> F;
  fmul : F -> F -> F;
  fdiv : F -> F -> F;
  fneg : F -> F;
  fabs : F -> F;
  fexp : F -> F;
  fsqrt : F -> F;
  fmaximum : F -> F -> F;
  fpow : F -> Z -> F;
  (** [scipy.linalg.dft(n)[j][k]], real and imaginary part *)
  dft_entry : nat -> nat -> nat -> F * F;
  (** LAPACK's Cholesky routine on a square buffer; [None] when the matrix
      is not positive definite *)
  potrf : list (list F) -> option (list (list F));
  (** the state of the global generator behind [np.random] *)
  G : Type;
  init_by_seed : Z -> G;
  os_entropy : nat -> G;
  next_double : G -> F * G;
  next_gauss : G -> F * G;
  next_below : Z -> G -> Z * G;
  next_below_range :
    forall n g, (0 < n)%Z -> (0 <= fst (next_below n g) < n)%Z
}.

Section Numeric.
Context {np : NumPy}.

Definition f0 : F := of_int 0.
Definition f1 : F := of_int 1.

Definition fmatrix : Type := matrix F.

(** Complex numbers, as [.view(np.complex)] pairs two consecutive floats. *)
Definition C : Type := (F * F)%type.
Definition c0 : C := (f0, f0).
Definition cadd (x y : C) : C := (fadd (fst x) (fst y), fadd (snd x) (snd y)).
Definition cmul (x y : C) : C :=
  (fsub (fmul (fst x) (fst y)) (fmul (snd x) (snd y)),
   fadd (fmul (fst x) (snd y)) (fmul (snd x) (fst y))).

Definition fsum (v : list F) : F := fold_left fadd v f0.

Definition np_mean (v : list F) : F :=
  fdiv (fsum v) (of_int (Z.of_nat (length v))).

(** [np.std] of a 1-D array. *)
Definition np_std (v : list F) : F :=
  let m := np_mean v in
  fsqrt (np_mean (map (fun x => fpow (fabs (fsub x m)) 2) v)).

(** [la.norm] of a 1-D array. *)
Definition la_norm (v : list F) : F :=
  fsqrt (fsum (map (fun x => fpow (fabs x) 2) v)).

(** [np.eye(n, m)] *)
Definition np_eye (n m : nat) : fmatrix :=
  mat_init n m (fun i j => if i =? j then f1 else f0).

(** [np.arange(0, n)], as floats. *)
Definition np_arange (n : nat) : list F :=
  map (fun i => of_int (Z.of_nat i)) (seq 0 n).

(** [la.cholesky(K)]: the lower factor, zero above the diagonal. *)
Definition la_cholesky (K : fmatrix) : result fmatrix :=
  if nrows K =? ncols K
  then match potrf (rows K) with
       | Some L =>
           Ok (mat_init (nrows K) (nrows K) (fun i j =>
                 if j <=? i then nth j (nth i L []) f0 else f0))
       | None => Raise LinAlgError
       end
  else Raise LinAlgError.

(** *** The global random state *)

Record World : Type := { rng : G; entropy_reads : nat }.

Definition seed_ok (k : Z) : bool := ((0 <=? k) && (k <? 2 ^ 32))%Z.

(** [np.random.seed(seed)] *)
Definition np_random_seed (seed : option Z) : Py World unit :=
  fun w =>
    match seed with
    | None =>
        (Ok tt, {| rng := os_entropy (entropy_reads w);
                   entropy_reads := S (entropy_reads w) |})
    | Some k =>
        if seed_ok k
        then (Ok tt, {| rng := init_by_seed k;
                        entropy_reads := entropy_reads w |})
        else (Raise ValueError, w)
    end.

Definition draw {A : Type} (step : G -> A * G) : Py World A :=
  fun w =>
    let (a, g) := step (rng w) in
    (Ok a, {| rng := g; entropy_reads := entropy_reads w |}).

(** [n] draws, in order. *)
Fixpoint draw_list {A : Type} (n : nat) (m : Py World A) : Py World (list A) :=
  match n with
  | 0 => ret []
  | S n' => x <- m ;; xs <- draw_list n' m ;; ret (x :: xs)
  end.

(** An r-by-c array filled in row-major order. *)
Definition draw_matrix {A : Type} (r c : nat) (m : Py World A)
  : Py World (matrix A) :=
  rs <- draw_list r (draw_list c m) ;; ret (Mat c rs).

(** One draw of [np.random.normal(loc, scale)]. *)
Definition normal1 (loc scale : F) : Py World F :=
  g <- draw next_gauss ;; ret (fadd loc (fmul scale g)).

(** One draw of [np.random.uniform(low, high)]. *)
Definition uniform1 (low high : F) : Py World F :=
  u <- draw next_double ;; ret (fadd low (fmul (fsub high low) u)).

(** One draw of [np.random.randint(low, high)], once the bounds were
    checked. *)
Definition randint1 (low high : Z) : Py World Z :=
  k <- draw (next_below (high - low)) ;; ret (low + k)%Z.

(** [np.random.randn(r, c)] and [np.random.randn(n)] *)
Definition np_random_randn (r c : nat) : Py World fmatrix :=
  draw_matrix r c (draw next_gauss).

Definition np_random_randn1 (n : nat) : Py World (list F) :=
  draw_list n (draw next_gauss).

(** [np.random.uniform(low, high, (r, c))] *)
Definition np_random_uniform (low high : F) (r c : nat) : Py World fmatrix :=
  draw_matrix r c (uniform1 low high).

(** [np.random.randint(low, high, (r, c))]: an empty range is rejected
    unless no sample is taken, and an empty size draws nothing. *)
Definition np_random_randint (low high : Z) (r c : nat)
  : Py World (matrix Z) :=
  if (high <=? low)%Z && negb (r * c =? 0) then raise ValueError
  else draw_matrix r c (randint1 low high).

(** [np.random.randint(high)], a single integer. *)
Definition np_random_randint0 (high : Z) : Py World Z :=
  if (high <=? 0)%Z then raise ValueError else randint1 0 high.

(** [np.random.normal(0, 1, size=(r, c, 2)).view(np.complex)]: r-by-c
    complex numbers, real part drawn first. *)
Definition complex_normal (r c : nat) : Py World (matrix C) :=
  draw_matrix r c (re <- normal1 f0 f1 ;; im <- normal1 f0 f1 ;; ret (re, im)).

(** [np.std(W, axis=1).reshape(-1, 1)] divides every row in place. *)
Definition normalize_rows (W : fmatrix) : result fmatrix :=
  inplace2 f0 f0 fdiv W (as_column (map np_std (rows W))).
End Numeric.

(** ** The injected linear classifier

    An sklearn estimator instance: [fit] changes it in place, [predict] and
    [score] read it, [coef_] and [intercept_] exist once it was fitted. An
    instance is not callable. *)

Class Sklearn {np : NumPy} : Type := {
  Clf : Type;
  (** [LinearSVC(random_state=seed, tol=1e-4, max_iter=1000)] *)
  LinearSVC : Z -> Clf;
  clf_fit : fmatrix -> list Z -> Py Clf unit;
  clf_predict : Clf -> fmatrix -> result (list Z);
  clf_score : Clf -> fmatrix -> list Z -> result F;
  clf_coef : Clf -> option fmatrix;
  clf_intercept : Clf -> option (list F)
}.

(** A Python number passed by keyword. *)
Inductive pyval {np : NumPy} : Type :=
| PyInt (z : Z)
| PyFloat (x : F).

Definition to_float {np : NumPy} (v : pyval) : F :=
  match v with PyInt z => of_int z | PyFloat x => x end.

(** A [dict] of keyword arguments. *)
Definition pydict {np : NumPy} : Type := list (string * pyval).

(** ** estimator.py *)

Module Legacy.
Section Legacy.
Context {np : NumPy} {sk : Sklearn}.

(** [relu(x, thrsh)] *)
Definition relu (x : fmatrix) (thrsh : F) : fmatrix :=
  mat_map (fun v => fmaximum v thrsh) x.

(** [sigmoid(x)] *)
Definition sigmoid (x : fmatrix) : fmatrix :=
  mat_map (fun v => fdiv f1 (fadd f1 (fexp (fneg v)))) x.

(** [gaussian(X, mu, sigma)], all three 1-D:
    [np.exp(-np.abs(mu - X) ** 2 / (2 * sigma ** 2))]. *)
Definition gaussian (X mu sigma : list F) : result (list F) :=
  match broadcast1 f0 f0 fsub mu X with
  | Ok d =>
      let num := map (fun v => fneg (fpow (fabs v) 2)) d in
      let den := map (fun s => fmul (of_int 2) (fpow s 2)) sigma in
      match broadcast1 f0 f0 fdiv num den with
      | Ok q => Ok (map fexp q)
      | Raise e => Raise e
      end
  | Raise e => Raise e
  end.

(** The [weights] argument: a string, [None], or a callable. *)
Inductive weights_arg : Type :=
| WStr (s : string)
| WNone
| WCallable (f : nat -> nat -> Py World fmatrix).

(** The list comprehension over [zip(mu, sigma)]. *)
Fixpoint gaussian_rows (k : list F) (ms : list (list F * list F))
  : result (list (list F)) :=
  match ms with
  | [] => Ok []
  | (m, s) :: ms' =>
      match gaussian k m s with
      | Ok r =>
          match gaussian_rows k ms' with
          | Ok rs => Ok (r :: rs)
          | Raise e => Raise e
          end
      | Raise e => Raise e
      end
  end.

(** [random_feature_matrix(M, N, weights, rand_seed)] *)
Definition random_feature_matrix (M N : nat) (weights : weights_arg)
    (rand_seed : option Z) : Py World fmatrix :=
  rand_seed <- match rand_seed with
               | None => np_random_randint0 1000
               | Some k => ret k
               end ;;
  np_random_seed (Some rand_seed) ;;;
  J <- match weights with
       | WStr s =>
           if String.eqb s "unimodal" then
             mu <- np_random_uniform (of_int 0) (of_int (Z.of_nat N)) M 1 ;;
             sigma <- np_random_uniform lit_0p1
                        (fdiv (of_int (Z.of_nat N)) (of_int 4)) M 1 ;;
             let k := np_arange N in
             bumps <- lift (gaussian_rows k (combine (rows mu) (rows sigma))) ;;
             scale <- np_random_randint 1 20 M 1 ;;
             lift (broadcast2 f0 f0 fmul (np_array bumps) (mat_map of_int scale))
           else if String.eqb s "white noise" then
             np_random_randn M N
           else raise TypeError
       | WNone => ret (np_eye N N)
       | WCallable f => f M N
       end ;;
  ret (transpose f0 J).

(** The [clf] attribute: [None], a class (or any callable that builds an
    estimator from keyword arguments), or an estimator instance. *)
Inductive clf_slot : Type :=
| ClfNone
| ClfClass (ctor : pydict -> result Clf)
| ClfObj (c : Clf).

Record RFClassifier : Type := {
  width : nat;
  weights : weights_arg;
  nonlinearity : fmatrix -> fmatrix;
  clf : clf_slot;
  weight_fun : option (nat -> nat -> Py World fmatrix);
  clf_args : pydict;
  seed : option Z;
  (** set by [fit]; [None] while the attribute does not exist *)
  W_ : option fmatrix;
  _fitted : option bool
}.

(** [RFClassifier(width, weights, nonlinearity, clf, weight_fun, clf_args,
    seed)] *)
Definition init (width : nat) (weights : weights_arg)
    (nonlinearity : fmatrix -> fmatrix) (clf : clf_slot)
    (weight_fun : option (nat -> nat -> Py World fmatrix))
    (clf_args : pydict) (seed : option Z) : RFClassifier :=
  {| width := width; weights := weights; nonlinearity := nonlinearity;
     clf := clf; weight_fun := weight_fun; clf_args := clf_args;
     seed := seed; W_ := None; _fitted := None |}.

Definition set_seed (s : option Z) (self : RFClassifier) : RFClassifier :=
  {| width := width self; weights := weights self;
     nonlinearity := nonlinearity self; clf := clf self;
     weight_fun := weight_fun self; clf_args := clf_args self;
     seed := s; W_ := W_ self; _fitted := _fitted self |}.

Definition set_clf (c : clf_slot) (self : RFClassifier) : RFClassifier :=
  {| width := width self; weights := weights self;
     nonlinearity := nonlinearity self; clf := c;
     weight_fun := weight_fun self; clf_args := clf_args self;
     seed := seed self; W_ := W_ self; _fitted := _fitted self |}.

Definition set_W_ (W : fmatrix) (self : RFClassifier) : RFClassifier :=
  {| width := width self; weights := weights self;
     nonlinearity := nonlinearity self; clf := clf self;
     weight_fun := weight_fun self; clf_args := clf_args self;
     seed := seed self; W_ := Some W; _fitted := _fitted self |}.

Definition set_fitted (b : bool) (self : RFClassifier) : RFClassifier :=
  {| width := width self; weights := weights self;
     nonlinearity := nonlinearity self; clf := clf self;
     weight_fun := weight_fun self; clf_args := clf_args self;
     seed := seed self; W_ := W_ self; _fitted := Some b |}.

(** Methods run on the object and the global random state. *)
Definition St : Type := (RFClassifier * World)%type.

Definition self_ : Py St RFClassifier := fun s => (Ok (fst s), s).

Definition update (f : RFClassifier -> RFClassifier) : Py St unit :=
  fun s => (Ok tt, (f (fst s), snd s)).

Definition in_world {A : Type} (m : Py World A) : Py St A :=
  fun s => let (r, w) := m (snd s) in (r, (fst s, w)).

(** [self.clf.fit(H, y)] *)
Definition call_clf_fit (H : fmatrix) (y : list Z) : Py St unit :=
  fun s =>
    match clf (fst s) with
    | ClfObj c =>
        let (r, c') := clf_fit H y c in
        (r, (set_clf (ClfObj c') (fst s), snd s))
    | ClfClass _ => (Raise TypeError, s)
    | ClfNone => (Raise AttributeError, s)
    end.

(** [fit(self, X, y)] *)
Definition fit (X : fmatrix) (y : list Z) : Py St unit :=
  if negb (nrows X =? length y) then raise ValueError
  else
    let n := ncols X in
    self <- self_ ;;
    sd <- match seed self with
          | None =>
              k <- in_world (np_random_randint0 1000) ;;
              update (set_seed (Some k)) ;;; ret k
          | Some k => ret k
          end ;;
    match clf self with
    | ClfNone => update (set_clf (ClfObj (LinearSVC sd)))
    | ClfClass ctor =>
        c <- lift (ctor (clf_args self)) ;; update (set_clf (ClfObj c))
    | ClfObj _ => raise TypeError
    end ;;;
    W <- match weight_fun self with
         | Some f => in_world (f (width self) n)
         | None =>
             in_world (random_feature_matrix (width self) n (weights self)
                         (Some sd))
         end ;;
    update (set_W_ W) ;;;
    self <- self_ ;;
    H <- lift (W <~ attr (W_ self) ;;
               XW <~ dot f0 fadd fmul X W ;;
               Ok (nonlinearity self XW)) ;;
    call_clf_fit H y ;;;
    update (set_fitted true).

(** [self.clf] as the object whose [predict] or [score] is called. *)
Definition clf_object (self : RFClassifier) : result Clf :=
  match clf self with
  | ClfObj c => Ok c
  | ClfClass _ => Raise TypeError
  | ClfNone => Raise AttributeError
  end.

(** [transform(self, X)] *)
Definition transform (self : RFClassifier) (X : fmatrix) : result fmatrix :=
  W <~ attr (W_ self) ;;
  XW <~ dot f0 fadd fmul X W ;;
  Ok (nonlinearity self XW).

(** [predict(self, X)] *)
Definition predict (self : RFClassifier) (X : fmatrix) : result (list Z) :=
  W <~ attr (W_ self) ;;
  XW <~ dot f0 fadd fmul X W ;;
  let H := nonlinearity self XW in
  c <~ clf_object self ;;
  clf_predict c H.

(** [score(self, X, y)] *)
Definition score (self : RFClassifier) (X : fmatrix) (y : list Z)
  : result F :=
  W <~ attr (W_ self) ;;
  XW <~ dot f0 fadd fmul X W ;;
  let H := nonlinearity self XW in
  c <~ clf_object self ;;
  clf_score c H y.
End Legacy.
End Legacy.

(** ** new_version/estimator.py *)

Module NewVersion.
Section NewVersion.
Context {np : NumPy} {sk : Sklearn}.

(** [scipy.linalg.dft(N, scale=None)] *)
Definition scipy_dft (N : nat) : matrix C := mat_init N N (dft_entry N).

(** [classical_weights(M, N, random_state)] *)
Definition classical_weights (M N : nat) (random_state : option Z)
  : Py World fmatrix :=
  np_random_seed random_state ;;;
  let dft := scipy_dft N in
  rand <- complex_normal M N ;;
  W <- lift (dot c0 cadd cmul rand dft) ;;
  lift (normalize_rows (mat_map fst W)).

(** A Python index on an axis of length [n], as a slice bound. *)
Definition py_bound (n : nat) (i : Z) : nat :=
  if (i <? 0)%Z then Z.to_nat (Z.max 0 (i + Z.of_nat n))
  else Nat.min (Z.to_nat i) n.

(** The slice [lo:hi] of an axis of length [n]: first index and length. *)
Definition py_slice (n : nat) (lo hi : Z) : nat * nat :=
  (py_bound n lo, py_bound n hi - py_bound n lo).

(** [rand[:, a:a+s] = noise.squeeze()], where [noise] has as many rows as
    [rand] and stands for an array of shape (rows, columns, 1): [squeeze]
    drops every axis of length 1, and what is left must broadcast to the
    slice. *)
Definition assign_squeezed (rand : matrix C) (a s : nat) (noise : matrix C)
  : result (matrix C) :=
  let r := nrows noise in
  let k := ncols noise in
  let fits :=
    if (r =? 1) && (k =? 1) then true
    else if r =? 1 then k =? s
    else if k =? 1 then r =? s
    else k =? s in
  let value (i j : nat) : C :=
    if (r =? 1) && (k =? 1) then mat_get c0 noise 0 0
    else if r =? 1 then mat_get c0 noise 0 j
    else if k =? 1 then mat_get c0 noise j 0
    else mat_get c0 noise i j in
  if fits
  then Ok (mat_init (nrows rand) (ncols rand) (fun i j =>
             if (a <=? j) && (j <? a + s) then value i (j - a)
             else mat_get c0 rand i j))
  else Raise ValueError.

(** [haltere_inspired_weights(M, N, lowcut, highcut, random_state)] *)
Definition haltere_inspired_weights (M N : nat) (lowcut highcut : Z)
    (random_state : option Z) : Py World fmatrix :=
  np_random_seed random_state ;;;
  let dft := scipy_dft N in
  let rand := mat_init M N (fun _ _ => c0) in
  noise <- (if (highcut - lowcut <? 0)%Z then raise ValueError
            else complex_normal M (Z.to_nat (highcut - lowcut))) ;;
  rand <- lift (let (a, s) := py_slice N lowcut highcut in
                assign_squeezed rand a s noise) ;;
  W <- lift (dot c0 cadd cmul rand dft) ;;
  lift (normalize_rows (mat_map fst W)).

(** [int(np.sqrt(N))] and the length of [np.arange(np.sqrt(N))]: the floor
    and the ceiling of the square root. The double-precision root of an
    integer below 2^52 is an integer exactly when the integer is a perfect
    square, so both are read off the integer square root. *)
Definition sqrt_floor (N : nat) : nat := Nat.sqrt N.

Definition sqrt_ceil (N : nat) : nat :=
  if Nat.sqrt N * Nat.sqrt N =? N then Nat.sqrt N else S (Nat.sqrt N).

(** [np.meshgrid(x, y)] *)
Definition np_meshgrid (x y : list F) : fmatrix * fmatrix :=
  (mat_init (length y) (length x) (fun _ j => nth j x f0),
   mat_init (length y) (length x) (fun i _ => nth i y f0)).

(** [squareform(pdist(grid, 'sqeuclidean'))] *)
Definition sqeuclidean (u v : list F) : F :=
  fsum (map (fun p => fmul (fsub (fst p) (snd p)) (fsub (fst p) (snd p)))
          (combine u v)).

Definition squareform_pdist (grid : fmatrix) : fmatrix :=
  let P := if nrows grid =? 0 then 1 else nrows grid in
  mat_init P P (fun p q =>
    if p =? q then f0 else sqeuclidean (mat_row grid p) (mat_row grid q)).

(** [V1_inspired_kernel_matrix(N, t, l, m)] *)
Definition V1_inspired_kernel_matrix (N : nat) (t l : F) (m : list Z)
  : result fmatrix :=
  let x := np_arange (sqrt_ceil N) in
  let (yy, xx) := np_meshgrid x x in
  match column_stack (flatten xx) (flatten yy) with
  | Raise e => Raise e
  | Ok grid =>
      let a := squareform_pdist grid in
      match broadcast2 f0 f0 fsub grid (as_row (map of_int m)) with
      | Raise e => Raise e
      | Ok diff =>
          let b := map (fun r => fpow (la_norm r) 2) (rows diff) in
          let c := as_column b in
          let two_l2 := fmul (of_int 2) (fpow l 2) in
          let two_t2 := fmul (of_int 2) (fpow t 2) in
          let ea := mat_map (fun v => fmul (of_int 10)
                                        (fexp (fdiv (fneg v) two_l2))) a in
          let eb := map (fun v => fexp (fdiv (fneg v) two_t2)) b in
          let ec := mat_map (fun v => fexp (fdiv (fneg v) two_t2)) c in
          match broadcast2 f0 f0 fmul ea (as_row eb) with
          | Raise e => Raise e
          | Ok K1 =>
              match broadcast2 f0 f0 fmul K1 ec with
              | Raise e => Raise e
              | Ok K =>
                  inplace2 f0 f0 fadd K (mat_map (fmul lit_1em5) (np_eye N N))
              end
          end
      end
  end.

(** [V1_inspired_weights_for_center(N, t, l, m, random_state)] *)
Definition V1_inspired_weights_for_center (N : nat) (t l : F) (m : list Z)
    (random_state : option Z) : Py World (list F) :=
  np_random_seed random_state ;;;
  K <- lift (V1_inspired_kernel_matrix N t l m) ;;
  L <- lift (la_cholesky K) ;;
  z <- np_random_randn1 N ;;
  lift (dot_vec f0 fadd fmul L z).

(** The loop of [V1_inspired_weights]: one row per center, stacked under
    the rows so far. *)
Fixpoint V1_rows (N : nat) (t l : F) (random_state : option Z)
    (centers : list (list Z)) (W : fmatrix) : Py World fmatrix :=
  match centers with
  | [] => ret W
  | m :: centers' =>
      w <- V1_inspired_weights_for_center N t l m random_state ;;
      W' <- lift (row_stack W w) ;;
      V1_rows N t l random_state centers' W'
  end.

(** [V1_inspired_weights(M, N, t, l, random_state)] *)
Definition V1_inspired_weights (M N : nat) (t l : F)
    (random_state : option Z) : Py World fmatrix :=
  np_random_seed random_state ;;;
  centers <- np_random_randint 0 (Z.of_nat (sqrt_floor N)) M 2 ;;
  V1_rows N t l random_state (rows centers) (Mat N []).

(** [relu(x, thrsh)] *)
Definition relu (x : fmatrix) (thrsh : F) : fmatrix :=
  mat_map (fun v => fmaximum v thrsh) x.

(** [poly(x, power)] *)
Definition poly (x : fmatrix) (power : Z) : fmatrix :=
  mat_map (fun v => fpow v power) x.

(** The [bias] argument: a number, or a 1-D array. *)
Inductive bias_arg : Type :=
| BiasScalar (c : F)
| BiasArray (v : list F).

(** The call protocol of a weight function:
    [fun(width, n_features, **kwargs, random_state=...)]. *)
Definition weight_function : Type :=
  nat -> nat -> pydict -> option Z -> Py World fmatrix.

(** The value passed under a keyword, if any. *)
Fixpoint kwarg (name : string) (kw : pydict) : option pyval :=
  match kw with
  | [] => None
  | (key, v) :: kw' => if String.eqb key name then Some v else kwarg name kw'
  end.

(** The three generators under that protocol: a call with a missing or an
    unexpected keyword is a [TypeError] before the body runs. A band limit
    that is not an integer is a [TypeError] too, but one raised inside the
    body, by [np.random.normal] when it reads the size, after
    [np.random.seed(random_state)] has run. *)
Definition classical_weights_fun : weight_function :=
  fun M N kw random_state =>
    match kw with
    | [] => classical_weights M N random_state
    | _ :: _ => raise TypeError
    end.

Definition haltere_inspired_weights_fun : weight_function :=
  fun M N kw random_state =>
    match kwarg "lowcut" kw, kwarg "highcut" kw, length kw with
    | Some (PyInt lowcut), Some (PyInt highcut), 2 =>
        haltere_inspired_weights M N lowcut highcut random_state
    | Some _, Some _, 2 => np_random_seed random_state ;;; raise TypeError
    | _, _, _ => raise TypeError
    end.

Definition V1_inspired_weights_fun : weight_function :=
  fun M N kw random_state =>
    match kwarg "t" kw, kwarg "l" kw, length kw with
    | Some t, Some l, 2 =>
        V1_inspired_weights M N (to_float t) (to_float l) random_state
    | _, _, _ => raise TypeError
    end.

Record RFClassifier : Type := {
  width : nat;
  nonlinearity : fmatrix -> fmatrix;
  weight_fun : weight_function;
  bias : bias_arg;
  clf : Clf;
  kwargs : option pydict;
  random_state : option Z;
  (** set by [fit]; [None] while the attribute does not exist *)
  W_ : option fmatrix;
  b_ : option bias_arg;
  H_ : option fmatrix;
  coef_ : option fmatrix;
  intercept_ : option (list F)
}.

(** [RFClassifier(width, weight_fun, bias, nonlinearity, clf, kwargs,
    random_state)] *)
Definition init (width : nat) (weight_fun : weight_function)
    (bias : bias_arg) (nonlinearity : fmatrix -> fmatrix) (clf : Clf)
    (kwargs : option pydict) (random_state : option Z) : RFClassifier :=
  {| width := width; nonlinearity := nonlinearity;
     weight_fun := weight_fun; bias := bias; clf := clf; kwargs := kwargs;
     random_state := random_state;
     W_ := None; b_ := None; H_ := None; coef_ := None;
     intercept_ := None |}.

Definition set_W_ (W : fmatrix) (self : RFClassifier) : RFClassifier :=
  {| width := width self; nonlinearity := nonlinearity self;
     weight_fun := weight_fun self; bias := bias self; clf := clf self;
     kwargs := kwargs self; random_state := random_state self;
     W_ := Some W; b_ := b_ self; H_ := H_ self; coef_ := coef_ self;
     intercept_ := intercept_ self |}.

Definition set_b_ (b : bias_arg) (self : RFClassifier) : RFClassifier :=
  {| width := width self; nonlinearity := nonlinearity self;
     weight_fun := weight_fun self; bias := bias self; clf := clf self;
     kwargs := kwargs self; random_state := random_state self;
     W_ := W_ self; b_ := Some b; H_ := H_ self; coef_ := coef_ self;
     intercept_ := intercept_ self |}.

Definition set_H_ (H : fmatrix) (self : RFClassifier) : RFClassifier :=
  {| width := width self; nonlinearity := nonlinearity self;
     weight_fun := weight_fun self; bias := bias self; clf := clf self;
     kwargs := kwargs self; random_state := random_state self;
     W_ := W_ self; b_ := b_ self; H_ := Some H; coef_ := coef_ self;
     intercept_ := intercept_ self |}.

Definition set_clf (c : Clf) (self : RFClassifier) : RFClassifier :=
  {| width := width self; nonlinearity := nonlinearity self;
     weight_fun := weight_fun self; bias := bias self; clf := c;
     kwargs := kwargs self; random_state := random_state self;
     W_ := W_ self; b_ := b_ self; H_ := H_ self; coef_ := coef_ self;
     intercept_ := intercept_ self |}.

Definition set_coef_ (c : fmatrix) (self : RFClassifier) : RFClassifier :=
  {| width := width self; nonlinearity := nonlinearity self;
     weight_fun := weight_fun self; bias := bias self; clf := clf self;
     kwargs := kwargs self; random_state := random_state self;
     W_ := W_ self; b_ := b_ self; H_ := H_ self; coef_ := Some c;
     intercept_ := intercept_ self |}.

Definition set_intercept_ (c : list F) (self : RFClassifier)
  : RFClassifier :=
  {| width := width self; nonlinearity := nonlinearity self;
     weight_fun := weight_fun self; bias := bias self; clf := clf self;
     kwargs := kwargs self; random_state := random_state self;
     W_ := W_ self; b_ := b_ self; H_ := H_ self; coef_ := coef_ self;
     intercept_ := Some c |}.

Definition St : Type := (RFClassifier * World)%type.

Definition self_ : Py St RFClassifier := fun s => (Ok (fst s), s).

Definition update (f : RFClassifier -> RFClassifier) : Py St unit :=
  fun s => (Ok tt, (f (fst s), snd s)).

Definition in_world {A : Type} (m : Py World A) : Py St A :=
  fun s => let (r, w) := m (snd s) in (r, (fst s, w)).

(** [A + b] *)
Definition add_bias (A : fmatrix) (b : bias_arg) : result fmatrix :=
  match b with
  | BiasScalar c => Ok (mat_map (fun x => fadd x c) A)
  | BiasArray v => broadcast2 f0 f0 fadd A (as_row v)
  end.

(** [_fit_transform(self, X)] *)
Definition _fit_transform (X : fmatrix) : Py St unit :=
  let n_features := ncols X in
  self <- self_ ;;
  W <- match kwargs self with
       | Some kw =>
           in_world (weight_fun self (width self) n_features kw
                       (random_state self))
       | None =>
           in_world (weight_fun self (width self) n_features []
                       (random_state self))
       end ;;
  update (set_W_ W) ;;;
  update (set_b_ (bias self)) ;;;
  self <- self_ ;;
  H <- lift (W <~ attr (W_ self) ;;
             XW <~ dot f0 fadd fmul X (transpose f0 W) ;;
             b <~ attr (b_ self) ;;
             pre <~ add_bias XW b ;;
             Ok (nonlinearity self pre)) ;;
  update (set_H_ H).

(** [self.clf.fit(self.H_, y)] *)
Definition call_clf_fit (y : list Z) : Py St unit :=
  fun s =>
    match attr (H_ (fst s)) with
    | Ok H =>
        let (r, c') := clf_fit H y (clf (fst s)) in
        (r, (set_clf c' (fst s), snd s))
    | Raise e => (Raise e, s)
    end.

(** [fit(self, X, y)] *)
Definition fit (X : fmatrix) (y : list Z) : Py St unit :=
  _fit_transform X ;;;
  call_clf_fit y ;;;
  self <- self_ ;;
  match clf_coef (clf self) with
  | None => raise AttributeError
  | Some c =>
      update (set_coef_ c) ;;;
      match clf_intercept (clf self) with
      | None => raise AttributeError
      | Some i => update (set_intercept_ i)
      end
  end.

(** [check_is_fitted(self, ["W_", "b_"])] and
    [check_is_fitted(self, ["coef_", "intercept_"])] *)
Definition check_is_fitted {A B : Type} (a : option A) (b : option B)
  : result unit :=
  match a, b with
  | Some _, Some _ => Ok tt
  | _, _ => Raise NotFittedError
  end.

(** [transform(self, X)] *)
Definition transform (self : RFClassifier) (X : fmatrix) : result fmatrix :=
  _ <~ check_is_fitted (W_ self) (b_ self) ;;
  W <~ attr (W_ self) ;;
  XW <~ dot f0 fadd fmul X (transpose f0 W) ;;
  b <~ attr (b_ self) ;;
  pre <~ add_bias XW b ;;
  Ok (nonlinearity self pre).

(** [score(self, X, y)] *)
Definition score (self : RFClassifier) (X : fmatrix) (y : list Z)
  : result F :=
  H <~ transform self X ;;
  _ <~ check_is_fitted (coef_ self) (intercept_ self) ;;
  clf_score (clf self) H y.

(** The [params] dict of [clf_wrapper]: the keyword arguments of the
    constructor, [kwargs] and [random_state] being [None] when left out. *)
Record params : Type := {
  params_width : nat;
  params_weight_fun : weight_function;
  params_bias : bias_arg;
  params_nonlinearity : fmatrix -> fmatrix;
  params_clf : Clf;
  params_kwargs : option pydict;
  params_random_state : option Z
}.

(** The call of the class with the entries of [params] as keywords. *)
Definition construct (p : params) : RFClassifier :=
  init (params_width p) (params_weight_fun p) (params_bias p)
    (params_nonlinearity p) (params_clf p) (params_kwargs p)
    (params_random_state p).

(** [clf_wrapper(RFClassifier, params, X_train, y_train, X_test, y_test,
    return_clf)] for the class of this module: the test data are scored
    first, the pair is returned as (train, test), with the adapter as a
    third component when [return_clf] is [True]. *)
Definition clf_wrapper (p : params) (X_train : fmatrix) (y_train : list Z)
    (X_test : fmatrix) (y_test : list Z) (return_clf : bool)
  : Py World (F * F * option RFClassifier) :=
  fun w =>
    let (r, s) := fit X_train y_train (construct p, w) in
    let clf := fst s in
    (_ <~ r ;;
     test_error <~ score clf X_test y_test ;;
     train_error <~ score clf X_train y_train ;;
     Ok (train_error, test_error, if return_clf then Some clf else None),
     snd s).
End NewVersion.
End NewVersion.

(** * The vocabulary of the properties *)

(** [outcome m P E]: from every state, [m] returns a value satisfying [P] or
    raises an exception satisfying [E]; with [never] for [E], it returns. *)

Definition outcome {S A : Type} (m : Py S A) (P : A -> Prop)
    (E : exn -> Prop) : Prop :=
  forall s, match fst (m s) with Ok a => P a | Raise e => E e end.

Definition never : exn -> Prop := fun _ => False.

Section Vocabulary.
Context {np : NumPy} {sk : Sklearn}.

(** A seed [np.random.seed] accepts: [None], or an integer below 2^32. *)
Definition seed_valid (seed : option Z) : Prop :=
  match seed with None => True | Some k => seed_ok k = true end.



(** The supported values of the first version's [weights] argument: the two
    strings and [None] (a callable is the caller's own generator). *)
Definition builtin_weights (weights : Legacy.weights_arg) : Prop :=
  match weights with
  | Legacy.WStr _ | Legacy.WNone => True
  | Legacy.WCallable _ => False
  end.

(** [rng_only m]: what [m] returns or raises, and the generator state it
    leaves when it returns, are determined by the generator state it starts
    from. [resets m]: they do not depend on the starting state at all. *)
Definition same_rng_after {A : Type} (r1 r2 : result A * World) : Prop :=
  fst r1 = fst r2
  /\ match fst r1 with
     | Ok _ => rng (snd r1) = rng (snd r2)
     | Raise _ => True
     end.

Definition rng_only {A : Type} (m : Py World A) : Prop :=
  forall w1 w2, rng w1 = rng w2 -> same_rng_after (m w1) (m w2).

Definition resets {A : Type} (m : Py World A) : Prop :=
  forall w1 w2, same_rng_after (m w1) (m w2).

(** The world right after [np.random.seed(k)]. *)
Definition seeded (k : Z) (w : World) : World :=
  {| rng := init_by_seed k; entropy_reads := entropy_reads w |}.

(** The feature map in the specification's words:
    [nonlinearity(X . W^T + b)]. *)
Definition spec_feature_map (nonlinearity : fmatrix -> fmatrix) (W : fmatrix)
    (b : NewVersion.bias_arg) (X : fmatrix) : result fmatrix :=
  XW <~ dot f0 fadd fmul X (transpose f0 W) ;;
  pre <~ NewVersion.add_bias XW b ;;
  Ok (nonlinearity pre).


(** The call [self.weight_fun(self.width, n_features, **kwargs,
    random_state=self.random_state)] of [_fit_transform]. *)
Definition generate_weights (a : NewVersion.RFClassifier) (n_features : nat)
  : Py World fmatrix :=
  match NewVersion.kwargs a with
  | Some kw =>
      NewVersion.weight_fun a (NewVersion.width a) n_features kw
        (NewVersion.random_state a)
  | None =>
      NewVersion.weight_fun a (NewVersion.width a) n_features []
        (NewVersion.random_state a)
  end.

(** The adapter as [_fit_transform] leaves it when it returns. *)
Definition projected (a : NewVersion.RFClassifier) (W H : fmatrix)
  : NewVersion.RFClassifier :=
  NewVersion.set_H_ H
    (NewVersion.set_b_ (NewVersion.bias a) (NewVersion.set_W_ W a)).

(** The adapter as a successful [fit] leaves it. *)
Definition fitted (a : NewVersion.RFClassifier) (W H : fmatrix) (c : Clf)
    (coef : fmatrix) (intercept : list F) : NewVersion.RFClassifier :=
  NewVersion.set_intercept_ intercept
    (NewVersion.set_coef_ coef (NewVersion.set_clf c (projected a W H))).

(** The adapter with the constructor's parameters and nothing fitted. *)
Definition unfitted (a : NewVersion.RFClassifier) : NewVersion.RFClassifier :=
  NewVersion.init (NewVersion.width a) (NewVersion.weight_fun a)
    (NewVersion.bias a) (NewVersion.nonlinearity a) (NewVersion.clf a)
    (NewVersion.kwargs a) (NewVersion.random_state a).

(** A nonlinearity that works entry by entry keeps the shape of its
    argument. *)
Definition shape_preserving (f : fmatrix -> fmatrix) : Prop :=
  forall A, shape (f A) = shape A.

(** A bias that broadcasts against [width] columns without widening them:
    a number, or a 1-D array of [width] entries or of one. *)
Definition bias_fits (width : nat) (b : NewVersion.bias_arg) : Prop :=
  match b with
  | NewVersion.BiasScalar _ => True
  | NewVersion.BiasArray v => length v = width \/ length v = 1
  end.

(** [reseeds m n]: a run of [m] that returns has reseeded the global
    generator from the operating system's entropy [n] times. *)
Definition reseeds {A : Type} (m : Py World A) (n : nat) : Prop :=
  forall w r w', m w = (Ok r, w') -> entropy_reads w' = entropy_reads w + n.

(** How often [np.random.seed(seed)] reads the entropy source: once for
    [None], never for an integer. *)
Definition seed_reads (seed : option Z) : nat :=
  match seed with None => 1 | Some _ => 0 end.

(** [overwrites_rng m]: the state in which a run of [m] that returns leaves
    the global generator is the same from every starting state. *)
Definition overwrites_rng {A : Type} (m : Py World A) : Prop :=
  forall w1 w2 r w1', m w1 = (Ok r, w1') -> rng (snd (m w2)) = rng w1'.
End Vocabulary.

(** ** A float64 backend to run the model

    Arithmetic is IEEE binary64. The exponential and the roots of unity of
    the DFT matrix are computed from Taylor polynomials, the generator is a
    63-bit linear congruential one and the Cholesky factorization is the
    textbook row-by-row one: stand-ins for libm, the Mersenne Twister and
    LAPACK that make the definitions above run. *)

Module Sample.
Definition float_of_int (z : Z) : float :=
  match z with
  | Z0 => 0%float
  | Zpos _ => PrimFloat.of_uint63 (Uint63.of_Z z)
  | Zneg _ => PrimFloat.opp (PrimFloat.of_uint63 (Uint63.of_Z (- z)))
  end.

(** [exp x] as the 16th power of a Taylor polynomial at [x / 16]. *)
Definition exp_approx (x : float) : float :=
  let y := (x / 16)%float in
  let p :=
    (1 + y * (1 + y / 2 * (1 + y / 3 * (1 + y / 4 * (1 + y / 5)))))%float in
  let p2 := (p * p)%float in
  let p4 := (p2 * p2)%float in
  let p8 := (p4 * p4)%float in
  (p8 * p8)%float.

Definition pow_int (x : float) (k : Z) : float :=
  match k with
  | Z0 => 1%float
  | Zpos p => Pos.iter (PrimFloat.mul x) 1%float p
  | Zneg p => (1 / Pos.iter (PrimFloat.mul x) 1%float p)%float
  end.

Definition maximum (x y : float) : float :=
  if PrimFloat.ltb x y then y else x.

Definition two_pi : float := 0x1.921fb54442d18p+2%float.

(** [cos a] and [sin a] for an angle between -pi and pi, by their Taylor
    polynomials in [a * a]. *)
Definition cos_approx (a : float) : float :=
  let u := (a * a)%float in
  (1 - u / 2 * (1 - u / 12 * (1 - u / 30 * (1 - u / 56 * (1 - u / 90
     * (1 - u / 132 * (1 - u / 182)))))))%float.

Definition sin_approx (a : float) : float :=
  let u := (a * a)%float in
  (a * (1 - u / 6 * (1 - u / 20 * (1 - u / 42 * (1 - u / 72 * (1 - u / 110
     * (1 - u / 156 * (1 - u / 210))))))))%float.

(** [exp(-2 pi i j k / n)], with the angle reduced to [-pi, pi]. *)
Definition dft_approx (n j k : nat) : float * float :=
  let r := Z.of_nat ((j * k) mod n) in
  let r' := if (Z.of_nat n <? 2 * r)%Z then (r - Z.of_nat n)%Z else r in
  let a := (- (two_pi * float_of_int r' / float_of_int (Z.of_nat n)))%float in
  (cos_approx a, sin_approx a).

Definition fdot (u v : list float) : float :=
  fold_left PrimFloat.add
    (map (fun p => (fst p * snd p)%float) (combine u v)) 0%float.

(** The entries left of the diagonal of one row of the factor. *)
Fixpoint chol_offdiag (a : list float) (prev : list (list float)) (j : nat)
    (cur : list float) : list float :=
  match prev with
  | [] => cur
  | Lj :: prev' =>
      chol_offdiag a prev' (S j)
        (cur ++ [((nth j a 0 - fdot cur Lj) / nth j Lj 0)%float])
  end.

Fixpoint chol_rows (A : list (list float)) (L : list (list float))
  : option (list (list float)) :=
  match A with
  | [] => Some L
  | a :: A' =>
      let cur := chol_offdiag a L 0 [] in
      let d := (nth (length L) a 0 - fdot cur cur)%float in
      if PrimFloat.ltb 0 d
      then chol_rows A' (L ++ [cur ++ [PrimFloat.sqrt d]])
      else None
  end.

Definition cholesky_rows (A : list (list float)) : option (list (list float)) :=
  chol_rows A [].

(** The generator: a linear congruential step on 63-bit integers. *)
Definition lcg (g : int) : int :=
  (g * 6364136223846793005 + 1442695040888963407)%uint63.

Definition lcg_double (g : int) : float * int :=
  ((PrimFloat.of_uint63 (lcg g >> 10)%uint63 / 0x1p+53)%float, lcg g).

Definition lcg_gauss (g : int) : float * int :=
  let (u1, g1) := lcg_double g in
  let (u2, g2) := lcg_double g1 in
  let (u3, g3) := lcg_double g2 in
  let (u4, g4) := lcg_double g3 in
  (((u1 + u2 + u3 + u4 - 2) * 0x1.bb67ae8584caap+0)%float, g4).

Definition lcg_below (n : Z) (g : int) : Z * int :=
  ((Uint63.to_Z (lcg g >> 32)%uint63 mod n)%Z, lcg g).

#[export] Instance backend : NumPy := {|
  F := float;
  of_int := float_of_int;
  lit_1em5 := 0x1.4f8b588e368f1p-17%float;
  lit_0p1 := 0x1.999999999999ap-4%float;
  fadd := PrimFloat.add;
  fsub := PrimFloat.sub;
  fmul := PrimFloat.mul;
  fdiv := PrimFloat.div;
  fneg := PrimFloat.opp;
  fabs := PrimFloat.abs;
  fexp := exp_approx;
  fsqrt := PrimFloat.sqrt;
  fmaximum := maximum;
  fpow := pow_int;
  dft_entry := dft_approx;
  potrf := cholesky_rows;
  G := int;
  init_by_seed := Uint63.of_Z;
  os_entropy := fun n => Uint63.of_Z (Z.of_nat n + 20200212);
  next_double := lcg_double;
  next_gauss := lcg_gauss;
  next_below := lcg_below;
  next_below_range := fun n g Hn =>
    Z.mod_pos_bound (Uint63.to_Z (lcg g >> 32)%uint63) n Hn
|}.

(** A classifier that answers the first label it was fitted on; like
    sklearn's, its [fit] and [score] reject inputs whose sample counts
    differ. *)
Definition toy_fit (H : matrix float) (y : list Z)
  : Py (option (nat * Z)) unit :=
  fun c =>
    if nrows H =? length y
    then (Ok tt, Some (ncols H, hd 0%Z y))
    else (Raise ValueError, c).

Definition toy_predict (c : option (nat * Z)) (H : matrix float)
  : result (list Z) :=
  match c with
  | Some (_, l) => Ok (repeat l (nrows H))
  | None => Raise NotFittedError
  end.

Definition toy_score (c : option (nat * Z)) (H : matrix float) (y : list Z)
  : result float :=
  match c with
  | Some (_, l) =>
      if nrows H =? length y
      then Ok (float_of_int (Z.of_nat (length (filter (Z.eqb l) y)))
               / float_of_int (Z.of_nat (length y)))%float
      else Raise ValueError
  | None => Raise NotFittedError
  end.

#[export] Instance classifier : Sklearn := {|
  Clf := option (nat * Z);
  LinearSVC := fun _ => None;
  clf_fit := toy_fit;
  clf_predict := toy_predict;
  clf_score := toy_score;
  clf_coef := fun c =>
    match c with
    | Some (n, _) => Some (Mat n [repeat 0%float n])
    | None => None
    end;
  clf_intercept := fun c =>
    match c with Some (_, l) => Some [float_of_int l] | None => None end
|}.

Definition world0 : World := {| rng := 0%uint63; entropy_reads := 0 |}.

(** Two samples of three features, their labels, and a label vector that is
    one short. *)
Definition X2 : matrix float :=
  Mat 3 [[1%float; 0.5%float; (-2)%float]; [0%float; 3%float; 1%float]].

Definition y2 : list Z := [0%Z; 1%Z].

Definition y1 : list Z := [1%Z].

(** One sample of one feature. *)
Definition X1 : matrix float := Mat 1 [[1%float]].

(** The first version with its defaults but a width of 2 and a seed, and the
    rewrite with the spectral generator, a bias of 2 and [relu]. *)
Definition legacy_clf : Legacy.RFClassifier :=
  Legacy.init 2 (Legacy.WStr "white noise")
    (fun x => Legacy.relu x 0%float) Legacy.ClfNone None [] (Some 42%Z).

Definition new_clf : NewVersion.RFClassifier :=
  NewVersion.init 2 NewVersion.classical_weights_fun
    (NewVersion.BiasScalar 2%float) (fun x => NewVersion.relu x 0%float)
    None None (Some 22%Z).

(** The two estimators after a fit on [X2], [y2], and the world each fit
    leaves. *)
Definition legacy_fitted : Legacy.St :=
  snd (Legacy.fit X2 y2 (legacy_clf, world0)).

Definition new_fitted : NewVersion.St :=
  snd (NewVersion.fit X2 y2 (new_clf, world0)).

(** The weights the rewrite holds after that fit. *)
Definition new_W : fmatrix :=
  match NewVersion.W_ (fst new_fitted) with
  | Some W => W
  | None => Mat 0 []
  end.

(** Two rows of receptive-field weights on a 2-by-2 grid; with seed 9 both
    centers are (0, 1). *)
Definition V1_run : result fmatrix * World :=
  NewVersion.V1_inspired_weights 2 4 5%float 3%float (Some 9%Z) world0.

Definition V1_sample : fmatrix :=
  match fst V1_run with
  | Ok W => W
  | Raise _ => Mat 0 []
  end.

(** The same two rows without a seed. *)
Definition V1_unseeded_run : result fmatrix * World :=
  NewVersion.V1_inspired_weights 2 4 5%float 3%float None world0.

(** Another state of the global generator. *)
Definition world1 : World := {| rng := 7%uint63; entropy_reads := 3 |}.

(** The weights the first version holds after its fit. *)
Definition legacy_W : fmatrix :=
  match Legacy.W_ (fst legacy_fitted) with
  | Some W => W
  | None => Mat 0 []
  end.

(** The rewrite with a bias of three entries for a width of two, and what
    its fit on [X2], [y2] leaves. *)
Definition biased_clf : NewVersion.RFClassifier :=
  NewVersion.init 2 NewVersion.classical_weights_fun
    (NewVersion.BiasArray [1%float; 2%float; 3%float])
    (fun x => NewVersion.relu x 0%float) None None (Some 22%Z).

Definition biased_fitted : NewVersion.St :=
  snd (NewVersion.fit X2 y2 (biased_clf, world0)).

(** The rewrite after a fit on two samples and one label. *)
Definition new_half_fitted : NewVersion.St :=
  snd (NewVersion.fit X2 y1 (new_clf, world0)).

(** The rewrite after [_fit_transform] alone. *)
Definition new_projected : NewVersion.St :=
  snd (NewVersion._fit_transform X2 (new_clf, world0)).


(** The keyword arguments [new_clf] is constructed from. *)
Definition new_params : NewVersion.params :=
  {| NewVersion.params_width := 2;
     NewVersion.params_weight_fun := NewVersion.classical_weights_fun;
     NewVersion.params_bias := NewVersion.BiasScalar 2%float;
     NewVersion.params_nonlinearity := fun x => NewVersion.relu x 0%float;
     NewVersion.params_clf := None;
     NewVersion.params_kwargs := None;
     NewVersion.params_random_state := Some 22%Z |}.
End Sample.

(** * Properties *)

Unset Implicit Arguments.

(** ** Shapes and entries of arrays *)

Section ArrayFacts.
Context {T : Type}.

Lemma nrows_mat_init (r c : nat) (f : nat -> nat -> T) :
  nrows (mat_init r c f) = r.
Proof. unfold nrows, mat_init; cbn. now rewrite length_map, length_seq. Qed.

Lemma ncols_mat_init (r c : nat) (f : nat -> nat -> T) :
  ncols (mat_init r c f) = c.
Proof. reflexivity. Qed.

Lemma shape_mat_init (r c : nat) (f : nat -> nat -> T) :
  shape (mat_init r c f) = (r, c).
Proof. unfold shape. now rewrite nrows_mat_init. Qed.

Lemma nth_map_seq {U : Type} (g : nat -> U) (n i : nat) (d : U) :
  i < n -> nth i (map g (seq 0 n)) d = g i.
Proof.
  intros Hi.
  rewrite (nth_indep _ d (g 0)) by now rewrite length_map, length_seq.
  rewrite (map_nth g (seq 0 n) 0 i).
  now rewrite seq_nth.
Qed.

Lemma mat_row_init (r c : nat) (f : nat -> nat -> T) (i : nat) :
  i < r -> mat_row (mat_init r c f) i = map (f i) (seq 0 c).
Proof. intros Hi. unfold mat_row, mat_init; cbn. now rewrite nth_map_seq. Qed.

Lemma mat_get_init (d : T) (r c : nat) (f : nat -> nat -> T) (i j : nat) :
  i < r -> j < c -> mat_get d (mat_init r c f) i j = f i j.
Proof.
  intros Hi Hj. unfold mat_get, mat_init; cbn.
  now rewrite nth_map_seq, nth_map_seq.
Qed.

Lemma rows_mat_init_length (r c : nat) (f : nat -> nat -> T) :
  Forall (fun row => length row = c) (rows (mat_init r c f)).
Proof.
  unfold mat_init; cbn. apply Forall_forall. intros row Hin.
  apply in_map_iff in Hin as [i [<- _]]. now rewrite length_map, length_seq.
Qed.


Lemma length_flatten_init (r c : nat) (f : nat -> nat -> T) :
  length (flatten (mat_init r c f)) = r * c.
Proof.
  unfold flatten, mat_init; cbn.
  generalize 0 at 2. induction r as [|r IH]; intros s; cbn; [reflexivity|].
  rewrite length_app, length_map, length_seq, IH. reflexivity.
Qed.

Lemma mat_init_ext (r c : nat) (f g : nat -> nat -> T) :
  (forall i j, i < r -> j < c -> f i j = g i j) ->
  mat_init r c f = mat_init r c g.
Proof.
  intros H. unfold mat_init. f_equal.
  apply map_ext_in. intros i Hi. apply in_seq in Hi.
  apply map_ext_in. intros j Hj. apply in_seq in Hj.
  apply H; lia.
Qed.
End ArrayFacts.

Lemma shape_mat_map {T U : Type} (f : T -> U) (A : matrix T) :
  shape (mat_map f A) = shape A.
Proof. unfold shape, nrows, mat_map; cbn. now rewrite length_map. Qed.

(** Splits [H : shape A = (r, c)] into its two equations. *)
Ltac shape_eqs H Hr Hc :=
  pose proof (f_equal fst H) as Hr;
  pose proof (f_equal snd H) as Hc;
  cbn [fst snd shape] in Hr, Hc.

Lemma broadcast_dim_same (a : nat) : broadcast_dim a a = Some a.
Proof. unfold broadcast_dim. now rewrite Nat.eqb_refl. Qed.

Lemma broadcast_dim_one_r (a : nat) : broadcast_dim a 1 = Some a.
Proof.
  unfold broadcast_dim. destruct (Nat.eqb_spec a 1) as [->|_]; [reflexivity|].
  reflexivity.
Qed.

Lemma broadcast_dim_one_l (a : nat) : broadcast_dim 1 a = Some a.
Proof.
  unfold broadcast_dim. destruct (Nat.eqb_spec 1 a) as [<-|_]; reflexivity.
Qed.

Lemma broadcast2_shape {T U V : Type} (dT : T) (dU : U) (op : T -> U -> V)
    (A : matrix T) (B : matrix U) (r c : nat) :
  broadcast_dim (nrows A) (nrows B) = Some r ->
  broadcast_dim (ncols A) (ncols B) = Some c ->
  exists R, broadcast2 dT dU op A B = Ok R /\ shape R = (r, c).
Proof.
  intros Hr Hc. unfold broadcast2. rewrite Hr, Hc.
  eexists; split; [reflexivity|]. apply shape_mat_init.
Qed.


Lemma dot_shape {T : Type} (zero : T) (add mul : T -> T -> T)
    (A B : matrix T) :
  ncols A = nrows B ->
  exists R, dot zero add mul A B = Ok R /\ shape R = (nrows A, ncols B).
Proof.
  intros H. unfold dot. rewrite H, Nat.eqb_refl.
  eexists; split; [reflexivity|]. apply shape_mat_init.
Qed.

Lemma dot_mismatch {T : Type} (zero : T) (add mul : T -> T -> T)
    (A B : matrix T) :
  ncols A <> nrows B -> dot zero add mul A B = Raise ValueError.
Proof.
  intros H. unfold dot. now destruct (Nat.eqb_spec (ncols A) (nrows B)).
Qed.



Lemma outcome_ret {S A : Type} (a : A) (P : A -> Prop) (E : exn -> Prop) :
  P a -> outcome (S := S) (ret a) P E.
Proof. intros H s. exact H. Qed.

Lemma outcome_raise {S A : Type} (e : exn) (P : A -> Prop)
    (E : exn -> Prop) :
  E e -> outcome (S := S) (raise e) P E.
Proof. intros H s. exact H. Qed.

Lemma outcome_lift {S A : Type} (r : result A) (P : A -> Prop)
    (E : exn -> Prop) :
  match r with Ok a => P a | Raise e => E e end ->
  outcome (S := S) (lift r) P E.
Proof. intros H s. exact H. Qed.

Lemma outcome_bind {S A B : Type} (m : Py S A) (k : A -> Py S B)
    (P : A -> Prop) (Q : B -> Prop) (E : exn -> Prop) :
  outcome m P E -> (forall a, P a -> outcome (k a) Q E) ->
  outcome (bind m k) Q E.
Proof.
  intros Hm Hk s. unfold bind. specialize (Hm s).
  destruct (m s) as [[a|e] s']; cbn in *; [now apply Hk | exact Hm].
Qed.

Lemma outcome_weaken {S A : Type} (m : Py S A) (P Q : A -> Prop)
    (E E' : exn -> Prop) :
  outcome m P E -> (forall a, P a -> Q a) -> (forall e, E e -> E' e) ->
  outcome m Q E'.
Proof.
  intros Hm HP HE s. specialize (Hm s).
  destruct (fst (m s)); [now apply HP | now apply HE].
Qed.

Section DrawFacts.
Context {np : NumPy}.

Lemma outcome_seed (seed : option Z) :
  seed_valid seed -> outcome (np_random_seed seed) (fun _ => True) never.
Proof.
  intros H s. unfold np_random_seed. destruct seed as [k|]; cbn in *.
  - now rewrite H.
  - exact I.
Qed.

Lemma outcome_seed_any (seed : option Z) :
  outcome (np_random_seed seed) (fun _ => True) (eq ValueError).
Proof.
  intros s. unfold np_random_seed. destruct seed as [k|]; cbn.
  - now destruct (seed_ok k).
  - exact I.
Qed.

Lemma outcome_draw {A : Type} (step : G -> A * G) (P : A -> Prop)
    (E : exn -> Prop) :
  (forall g, P (fst (step g))) -> outcome (draw step) P E.
Proof.
  intros H s. unfold draw. specialize (H (rng s)).
  now destruct (step (rng s)).
Qed.

Lemma outcome_draw_list {A : Type} (n : nat) (m : Py World A)
    (P : A -> Prop) (E : exn -> Prop) :
  outcome m P E ->
  outcome (draw_list n m) (fun l => length l = n /\ Forall P l) E.
Proof.
  intros Hm. induction n as [|n IH]; cbn [draw_list].
  - apply outcome_ret. split; [reflexivity | constructor].
  - eapply outcome_bind; [exact Hm|]. intros x Hx.
    eapply outcome_bind; [exact IH|]. intros xs [Hlen Hall].
    apply outcome_ret. split; [cbn; now rewrite Hlen | now constructor].
Qed.

Lemma outcome_draw_matrix {A : Type} (r c : nat) (m : Py World A)
    (E : exn -> Prop) :
  outcome m (fun _ => True) E ->
  outcome (draw_matrix r c m)
    (fun W => shape W = (r, c)
              /\ Forall (fun row => length row = c) (rows W)) E.
Proof.
  intros Hm. unfold draw_matrix.
  eapply outcome_bind.
  - apply outcome_draw_list. apply outcome_draw_list. exact Hm.
  - intros rs [Hlen Hall]. apply outcome_ret. split.
    + unfold shape, nrows; cbn. now rewrite Hlen.
    + cbn. eapply Forall_impl; [|exact Hall]. now intros row [H _].
Qed.

Lemma outcome_normal1 (loc scale : F) (E : exn -> Prop) :
  outcome (normal1 loc scale) (fun _ => True) E.
Proof.
  unfold normal1. eapply outcome_bind; [now apply outcome_draw with (P := fun _ => True)|].
  intros g _. now apply outcome_ret.
Qed.


Lemma outcome_randint1 (low high : Z) (E : exn -> Prop) :
  (low < high)%Z ->
  outcome (randint1 low high) (fun k => (low <= k < high)%Z) E.
Proof.
  intros H. unfold randint1. eapply outcome_bind.
  - apply outcome_draw with (P := fun k => (0 <= k < high - low)%Z).
    intros g. apply next_below_range. lia.
  - intros k Hk. cbv beta in Hk. apply outcome_ret. lia.
Qed.

Lemma outcome_randint (low high : Z) (r c : nat) (E : exn -> Prop) :
  (low < high)%Z ->
  outcome (np_random_randint low high r c)
    (fun W => shape W = (r, c)
              /\ Forall (fun row => length row = c) (rows W)) E.
Proof.
  intros H. unfold np_random_randint.
  destruct (Z.leb_spec high low); [lia|]. cbn [andb].
  apply outcome_draw_matrix.
  eapply outcome_weaken; [now apply outcome_randint1 | intros; exact I | intros e He; exact He].
Qed.

(** Whenever [np.random.randint] returns, the array has the size asked
    for. *)
Lemma randint_returns (low high : Z) (r c : nat) (w w' : World)
    (W : matrix Z) :
  np_random_randint low high r c w = (Ok W, w') ->
  shape W = (r, c) /\ Forall (fun row => length row = c) (rows W).
Proof.
  unfold np_random_randint.
  destruct ((high <=? low)%Z && negb (r * c =? 0)); [discriminate|].
  intros H.
  assert (Hone : outcome (randint1 low high) (fun _ => True) never).
  { unfold randint1. eapply outcome_bind.
    - apply outcome_draw with (P := fun _ => True). intros g. exact I.
    - intros k _. now apply outcome_ret. }
  pose proof (outcome_draw_matrix r c (randint1 low high) never Hone w) as Ho.
  rewrite H in Ho. exact Ho.
Qed.

Lemma outcome_randint0 (high : Z) (E : exn -> Prop) :
  (0 < high)%Z ->
  outcome (np_random_randint0 high) (fun k => (0 <= k < high)%Z) E.
Proof.
  intros H. unfold np_random_randint0.
  destruct (Z.leb_spec high 0); [lia|]. now apply outcome_randint1.
Qed.

Lemma outcome_complex_normal (r c : nat) (E : exn -> Prop) :
  outcome (complex_normal r c)
    (fun W => shape W = (r, c)
              /\ Forall (fun row => length row = c) (rows W)) E.
Proof.
  unfold complex_normal. apply outcome_draw_matrix.
  eapply outcome_bind; [apply outcome_normal1|]. intros re _.
  eapply outcome_bind; [apply outcome_normal1|]. intros im _.
  now apply outcome_ret.
Qed.

Lemma normalize_rows_shape (W : fmatrix) :
  exists R, normalize_rows W = Ok R /\ shape R = shape W.
Proof.
  unfold normalize_rows, inplace2.
  assert (Hn : nrows (as_column (map np_std (rows W))) = nrows W).
  { unfold nrows, as_column; cbn. now rewrite !length_map. }
  rewrite Hn, Nat.eqb_refl.
  change (ncols (as_column (map np_std (rows W)))) with 1.
  cbn [Nat.eqb orb andb]. rewrite orb_true_r.
  eexists; split; [reflexivity|]. apply shape_mat_init.
Qed.
End DrawFacts.

(** ** Shapes of the generated weights *)

Section GeneratorShapes.
Context {np : NumPy}.




(** The seed [random_feature_matrix] settles on is always accepted when the
    caller's is. *)
Lemma legacy_seed_outcome (rand_seed : option Z) :
  seed_valid rand_seed ->
  outcome (match rand_seed with
           | None => np_random_randint0 1000
           | Some k => ret k
           end) (fun k => seed_ok k = true) never.
Proof.
  intros H. destruct rand_seed as [k|].
  - now apply outcome_ret.
  - eapply outcome_weaken; [apply (outcome_randint0 1000); lia | |
                             intros e He; exact He].
    intros k Hk. cbv beta in Hk. unfold seed_ok.
    change (2 ^ 32)%Z with 4294967296%Z.
    apply andb_true_intro. split; [apply Z.leb_le | apply Z.ltb_lt]; lia.
Qed.



Lemma transpose_eye (n : nat) : transpose f0 (np_eye n n) = np_eye n n.
Proof.
  unfold transpose, np_eye. rewrite nrows_mat_init, ncols_mat_init.
  apply mat_init_ext. intros i j Hi Hj.
  rewrite mat_get_init by assumption.
  rewrite (Nat.eqb_sym j i). reflexivity.
Qed.

Lemma identity_result (M N : nat) (rand_seed : option Z) :
  seed_valid rand_seed ->
  outcome (Legacy.random_feature_matrix M N Legacy.WNone rand_seed)
    (fun W => W = np_eye N N) never.
Proof.
  intros Hs. unfold Legacy.random_feature_matrix.
  eapply outcome_bind; [now apply legacy_seed_outcome|]. intros k Hk.
  eapply outcome_bind; [now apply (outcome_seed (Some k))|]. intros _ _.
  eapply outcome_bind with (P := fun J => J = np_eye N N).
  - now apply outcome_ret.
  - intros J ->. apply outcome_ret. apply transpose_eye.
Qed.

Lemma classical_weights_shape (M N : nat) (random_state : option Z) :
  seed_valid random_state ->
  outcome (NewVersion.classical_weights M N random_state)
    (fun W => shape W = (M, N)) never.
Proof.
  intros Hs. unfold NewVersion.classical_weights.
  eapply outcome_bind; [now apply outcome_seed|]. intros _ _.
  eapply outcome_bind; [apply outcome_complex_normal|].
  intros rand [Hrand _]. shape_eqs Hrand H1 H2.
  destruct (dot_shape c0 cadd cmul rand (NewVersion.scipy_dft N))
    as [R [HR HRs]].
  { unfold NewVersion.scipy_dft. now rewrite nrows_mat_init, H2. }
  eapply outcome_bind with (P := fun W => W = R).
  { apply outcome_lift. now rewrite HR. }
  intros W ->. apply outcome_lift.
  destruct (normalize_rows_shape (mat_map fst R)) as [R' [-> HR']].
  cbv beta iota. rewrite HR'.
  etransitivity; [apply shape_mat_map|]. etransitivity; [exact HRs|].
  now rewrite H1.
Qed.






Lemma sqrt_ceil_nonsquare (N : nat) :
  Nat.sqrt N * Nat.sqrt N <> N ->
  NewVersion.sqrt_ceil N = S (Nat.sqrt N)
  /\ N < NewVersion.sqrt_ceil N * NewVersion.sqrt_ceil N
  /\ 2 <= N /\ 0 < Nat.sqrt N.
Proof.
  intros H. unfold NewVersion.sqrt_ceil.
  destruct (Nat.eqb_spec (Nat.sqrt N * Nat.sqrt N) N) as [E|_];
    [contradiction|].
  pose proof (Nat.sqrt_spec N (Nat.le_0_l N)) as [Hlo Hhi].
  assert (HN : 2 <= N).
  { destruct N as [|[|N]]; [now contradiction H| now contradiction H | lia]. }
  assert (Hs : 0 < Nat.sqrt N).
  { destruct (Nat.sqrt N); [cbn in Hhi; lia | lia]. }
  repeat split; try assumption.
Qed.

(** Up to the jitter, the kernel is a square array over the points of the
    grid, whose side is the ceiling of the square root of [N]. *)
Lemma kernel_before_jitter (N : nat) (t l : F) (m : list Z) :
  length m = 2 -> 0 < NewVersion.sqrt_ceil N ->
  exists K,
    shape K = (NewVersion.sqrt_ceil N * NewVersion.sqrt_ceil N,
               NewVersion.sqrt_ceil N * NewVersion.sqrt_ceil N)
    /\ NewVersion.V1_inspired_kernel_matrix N t l m
       = inplace2 f0 f0 fadd K (mat_map (fmul lit_1em5) (np_eye N N)).
Proof.
  intros Hm Hn. unfold NewVersion.V1_inspired_kernel_matrix.
  set (n := NewVersion.sqrt_ceil N) in *.
  assert (Hx : length (np_arange n) = n).
  { unfold np_arange. now rewrite length_map, length_seq. }
  cbn [NewVersion.np_meshgrid]. rewrite Hx.
  unfold column_stack. rewrite !length_flatten_init, Nat.eqb_refl.
  set (grid := Mat 2 _).
  assert (Hgr : nrows grid = n * n).
  { unfold nrows, grid; cbn [rows].
    rewrite length_map, length_combine, !length_flatten_init.
    apply Nat.min_id. }
  assert (Hpos : 0 < n * n) by nia.
  destruct (broadcast2_shape f0 f0 fsub grid (as_row (map of_int m))
              (n * n) 2) as [diff [-> Hdiff]].
  { rewrite Hgr. apply broadcast_dim_one_r. }
  { cbn [ncols grid as_row]. rewrite length_map, Hm.
    apply broadcast_dim_same. }
  shape_eqs Hdiff Hd1 Hd2.
  set (b := map (fun r => fpow (la_norm r) 2) (rows diff)).
  assert (Hb : length b = n * n).
  { unfold b. rewrite length_map. exact Hd1. }
  set (ea := mat_map _ (NewVersion.squareform_pdist grid)).
  assert (Hea : shape ea = (n * n, n * n)).
  { unfold ea. rewrite shape_mat_map. unfold NewVersion.squareform_pdist.
    rewrite shape_mat_init, Hgr.
    destruct (Nat.eqb_spec (n * n) 0); [lia | reflexivity]. }
  shape_eqs Hea He1 He2.
  set (eb := map _ b).
  destruct (broadcast2_shape f0 f0 fmul ea (as_row eb) (n * n) (n * n))
    as [K1 [-> HK1]].
  { rewrite He1. apply broadcast_dim_one_r. }
  { rewrite He2. cbn [ncols as_row]. unfold eb. rewrite length_map, Hb.
    apply broadcast_dim_same. }
  shape_eqs HK1 Hk1 Hk2.
  set (ec := mat_map _ (as_column b)).
  destruct (broadcast2_shape f0 f0 fmul K1 ec (n * n) (n * n))
    as [K [-> HK]].
  { rewrite Hk1. replace (nrows ec) with (n * n).
    - apply broadcast_dim_same.
    - unfold ec, nrows, mat_map, as_column; cbn [rows].
      now rewrite !length_map. }
  { rewrite Hk2. apply broadcast_dim_one_r. }
  exists K. split; [exact HK | reflexivity].
Qed.


(** For an [N] that is not a perfect square the grid has more than [N]
    points, and adding the N-by-N jitter to the kernel fails. *)
Lemma kernel_nonsquare (N : nat) (t l : F) (m : list Z) :
  length m = 2 -> Nat.sqrt N * Nat.sqrt N <> N ->
  NewVersion.V1_inspired_kernel_matrix N t l m = Raise ValueError.
Proof.
  intros Hm HN.
  destruct (sqrt_ceil_nonsquare N HN) as (Hc & Hlt & H2 & _).
  destruct (kernel_before_jitter N t l m Hm) as [K [HK ->]].
  { rewrite Hc. lia. }
  shape_eqs HK H1 H3. unfold inplace2. rewrite H1, H3.
  replace (nrows (mat_map (fmul lit_1em5) (np_eye N N))) with N.
  - destruct (Nat.eqb_spec N (NewVersion.sqrt_ceil N * NewVersion.sqrt_ceil N));
      [lia|].
    destruct (Nat.eqb_spec N 1); [lia|]. reflexivity.
  - unfold nrows, mat_map, np_eye, mat_init; cbn [rows].
    now rewrite !length_map, length_seq.
Qed.





Lemma for_center_nonsquare (N : nat) (t l : F) (m : list Z)
    (random_state : option Z) :
  length m = 2 -> Nat.sqrt N * Nat.sqrt N <> N ->
  outcome (NewVersion.V1_inspired_weights_for_center N t l m random_state)
    (fun _ => False) (eq ValueError).
Proof.
  intros Hm HN. unfold NewVersion.V1_inspired_weights_for_center.
  eapply outcome_bind; [apply outcome_seed_any|]. intros _ _.
  eapply outcome_bind with (P := fun _ => False); [|intros ? []].
  apply outcome_lift. now rewrite kernel_nonsquare.
Qed.

(** On an [N] that is not a perfect square the generator raises
    [ValueError] as soon as it is asked for one row. *)
Lemma V1_nonsquare_raises (M N : nat) (t l : F) (random_state : option Z) :
  0 < M -> Nat.sqrt N * Nat.sqrt N <> N ->
  outcome (NewVersion.V1_inspired_weights M N t l random_state)
    (fun _ => False) (eq ValueError).
Proof.
  intros HM HN. destruct (sqrt_ceil_nonsquare N HN) as (_ & _ & _ & Hs).
  unfold NewVersion.V1_inspired_weights.
  eapply outcome_bind; [apply outcome_seed_any|]. intros _ _.
  eapply outcome_bind.
  { apply outcome_randint. unfold NewVersion.sqrt_floor. lia. }
  intros centers [Hc Hrows]. shape_eqs Hc H1 H2. unfold nrows in H1.
  destruct (rows centers) as [|m centers']; [cbn in H1; lia|].
  cbn [NewVersion.V1_rows].
  eapply outcome_bind with (P := fun _ => False); [|intros ? []].
  apply for_center_nonsquare; [|exact HN]. now inversion Hrows.
Qed.
End GeneratorShapes.

(** ** Dependence on the global random state *)

Section Determinism.
Context {np : NumPy}.

Lemma resets_rng_only {A : Type} (m : Py World A) : resets m -> rng_only m.
Proof. intros H w1 w2 _. apply H. Qed.

Lemma rng_only_ret {A : Type} (a : A) : rng_only (ret a).
Proof. intros w1 w2 H. now split. Qed.

Lemma rng_only_raise {A : Type} (e : exn) : rng_only (raise (A := A) e).
Proof. intros w1 w2 H. now split. Qed.

Lemma rng_only_lift {A : Type} (r : result A) : rng_only (lift r).
Proof. intros w1 w2 H. split; [reflexivity|]. cbn. now destruct r. Qed.

Lemma rng_only_bind {A B : Type} (m : Py World A) (k : A -> Py World B) :
  rng_only m -> (forall a, rng_only (k a)) -> rng_only (bind m k).
Proof.
  intros Hm Hk w1 w2 Hw. unfold bind.
  destruct (Hm w1 w2 Hw) as [Hv Hg].
  destruct (m w1) as [[a1|e1] s1], (m w2) as [[a2|e2] s2];
    cbn in Hv, Hg; try discriminate.
  - injection Hv as <-. now apply Hk.
  - injection Hv as <-. now split.
Qed.

Lemma resets_bind {A B : Type} (m : Py World A) (k : A -> Py World B) :
  resets m -> (forall a, rng_only (k a)) -> resets (bind m k).
Proof.
  intros Hm Hk w1 w2. unfold bind.
  destruct (Hm w1 w2) as [Hv Hg].
  destruct (m w1) as [[a1|e1] s1], (m w2) as [[a2|e2] s2];
    cbn in Hv, Hg; try discriminate.
  - injection Hv as <-. now apply Hk.
  - injection Hv as <-. now split.
Qed.

Lemma resets_ret_bind {A B : Type} (a : A) (k : A -> Py World B) :
  resets (k a) -> resets (bind (ret a) k).
Proof. intros H w1 w2. exact (H w1 w2). Qed.

Lemma rng_only_draw {A : Type} (step : G -> A * G) : rng_only (draw step).
Proof.
  intros w1 w2 Hw. unfold draw. rewrite Hw.
  destruct (step (rng w2)). now split.
Qed.

Lemma rng_only_draw_list {A : Type} (n : nat) (m : Py World A) :
  rng_only m -> rng_only (draw_list n m).
Proof.
  intros Hm. induction n as [|n IH]; cbn [draw_list].
  - apply rng_only_ret.
  - apply rng_only_bind; [exact Hm|]. intros x.
    apply rng_only_bind; [exact IH|]. intros xs. apply rng_only_ret.
Qed.

Lemma rng_only_draw_matrix {A : Type} (r c : nat) (m : Py World A) :
  rng_only m -> rng_only (draw_matrix r c m).
Proof.
  intros Hm. unfold draw_matrix. apply rng_only_bind.
  - now do 2 apply rng_only_draw_list.
  - intros rs. apply rng_only_ret.
Qed.

Lemma resets_seed (k : Z) : resets (np_random_seed (Some k)).
Proof.
  intros w1 w2. unfold np_random_seed. destruct (seed_ok k); now split.
Qed.

Create HintDb rng.

#[local] Hint Resolve rng_only_ret rng_only_raise rng_only_lift
  rng_only_draw rng_only_draw_list rng_only_draw_matrix : rng.
#[local] Hint Extern 2 (rng_only (bind _ _)) =>
  apply rng_only_bind; [|intro; cbv beta] : rng.
#[local] Hint Extern 1 (rng_only (np_random_seed (Some _))) =>
  apply resets_rng_only, resets_seed : rng.
#[local] Hint Extern 3 (rng_only (if ?b then _ else _)) => destruct b : rng.

Lemma rng_only_normal1 (loc scale : F) : rng_only (normal1 loc scale).
Proof. unfold normal1. auto with rng. Qed.

Lemma rng_only_uniform1 (low high : F) : rng_only (uniform1 low high).
Proof. unfold uniform1. auto with rng. Qed.

Lemma rng_only_randint1 (low high : Z) : rng_only (randint1 low high).
Proof. unfold randint1. auto with rng. Qed.

#[local] Hint Resolve rng_only_normal1 rng_only_uniform1 rng_only_randint1
  : rng.

Lemma rng_only_randint (low high : Z) (r c : nat) :
  rng_only (np_random_randint low high r c).
Proof.
  unfold np_random_randint.
  destruct ((high <=? low)%Z && negb (r * c =? 0)); auto with rng.
Qed.

Lemma rng_only_randn1 (n : nat) : rng_only (np_random_randn1 n).
Proof. unfold np_random_randn1. auto with rng. Qed.

Lemma rng_only_complex_normal (r c : nat) : rng_only (complex_normal r c).
Proof. unfold complex_normal. auto 8 with rng. Qed.

#[local] Hint Resolve rng_only_randint rng_only_randn1
  rng_only_complex_normal : rng.

Lemma resets_classical (M N : nat) (k : Z) :
  resets (NewVersion.classical_weights M N (Some k)).
Proof.
  unfold NewVersion.classical_weights.
  apply resets_bind; [apply resets_seed|]. intros _. auto 8 with rng.
Qed.

Lemma resets_haltere (M N : nat) (lowcut highcut k : Z) :
  resets (NewVersion.haltere_inspired_weights M N lowcut highcut (Some k)).
Proof.
  unfold NewVersion.haltere_inspired_weights.
  apply resets_bind; [apply resets_seed|]. intros _. auto 8 with rng.
Qed.

Lemma resets_for_center (N : nat) (t l : F) (m : list Z) (k : Z) :
  resets (NewVersion.V1_inspired_weights_for_center N t l m (Some k)).
Proof.
  unfold NewVersion.V1_inspired_weights_for_center.
  apply resets_bind; [apply resets_seed|]. intros _. auto 8 with rng.
Qed.

Lemma rng_only_V1_rows (N : nat) (t l : F) (k : Z) (centers : list (list Z))
    (W : fmatrix) :
  rng_only (NewVersion.V1_rows N t l (Some k) centers W).
Proof.
  revert W. induction centers as [|m centers IH]; intros W;
    cbn [NewVersion.V1_rows].
  - apply rng_only_ret.
  - apply rng_only_bind; [apply resets_rng_only, resets_for_center|].
    intros w. apply rng_only_bind; [apply rng_only_lift|]. intros W'.
    apply IH.
Qed.

Lemma resets_V1 (M N : nat) (t l : F) (k : Z) :
  resets (NewVersion.V1_inspired_weights M N t l (Some k)).
Proof.
  unfold NewVersion.V1_inspired_weights.
  apply resets_bind; [apply resets_seed|]. intros _.
  apply rng_only_bind; [apply rng_only_randint|]. intros centers.
  apply rng_only_V1_rows.
Qed.

Lemma resets_random_feature_matrix (M N : nat) (weights : Legacy.weights_arg)
    (k : Z) :
  builtin_weights weights ->
  resets (Legacy.random_feature_matrix M N weights (Some k)).
Proof.
  intros Hw. unfold Legacy.random_feature_matrix.
  apply resets_ret_bind.
  apply resets_bind; [apply resets_seed|]. intros _.
  apply rng_only_bind; [|intros J; apply rng_only_ret].
  destruct weights as [s| |f]; [|apply rng_only_ret|contradiction].
  unfold np_random_uniform, np_random_randn, fmatrix.
  destruct (String.eqb s "unimodal").
  - auto 12 with rng.
  - destruct (String.eqb s "white noise"); auto with rng.
Qed.
End Determinism.

(** ** Rows of the receptive-field weights under a fixed seed *)

Section SeededRows.
Context {np : NumPy}.

Lemma seed_some (k : Z) (w : World) :
  np_random_seed (Some k) w
  = if seed_ok k then (Ok tt, seeded k w) else (Raise ValueError, w).
Proof. reflexivity. Qed.

Lemma for_center_any_world (N : nat) (t l : F) (m : list Z) (k : Z)
    (w w0 : World) (r : list F) :
  fst (NewVersion.V1_inspired_weights_for_center N t l m (Some k) w) = Ok r ->
  fst (NewVersion.V1_inspired_weights_for_center N t l m (Some k) w0) = Ok r.
Proof.
  intros H. destruct (resets_for_center N t l m k w0 w) as [E _].
  now rewrite E.
Qed.

Lemma V1_rows_characterised (N : nat) (t l : F) (k : Z)
    (centers : list (list Z)) (W R : fmatrix) (w w' : World) :
  NewVersion.V1_rows N t l (Some k) centers W w = (Ok R, w') ->
  exists rs,
    rows R = rows W ++ rs /\ ncols R = ncols W
    /\ length rs = length centers
    /\ forall i w0, i < length centers ->
         fst (NewVersion.V1_inspired_weights_for_center N t l
                (nth i centers []) (Some k) w0) = Ok (nth i rs []).
Proof.
  revert W w. induction centers as [|m centers IH]; intros W w;
    cbn [NewVersion.V1_rows].
  - intros [= <- <-]. exists []. rewrite app_nil_r.
    repeat split. intros i w0 Hi. cbn in Hi. lia.
  - unfold bind at 1.
    destruct (NewVersion.V1_inspired_weights_for_center N t l m (Some k) w)
      as [[r|e] w1] eqn:Hrow; [|discriminate].
    unfold bind at 1, lift at 1, row_stack.
    destruct (ncols W =? length r); [|discriminate].
    intros Hrest. apply IH in Hrest as (rs & Hrows & Hcols & Hlen & Hnth).
    cbn [rows ncols] in Hrows, Hcols.
    exists (r :: rs). rewrite <- app_assoc in Hrows. cbn in Hrows.
    repeat split; [exact Hrows | exact Hcols | cbn; now rewrite Hlen |].
    intros [|i] w0 Hi; cbn [nth].
    + apply for_center_any_world with (w := w). now rewrite Hrow.
    + apply Hnth. cbn in Hi. lia.
Qed.

(** What one row is made of: the Cholesky factor of the kernel of its
    center, applied to the [N] standard normal numbers that follow
    [np.random.seed(k)]. *)
Lemma for_center_decompose (N : nat) (t l : F) (m : list Z) (k : Z)
    (w : World) (r : list F) :
  fst (NewVersion.V1_inspired_weights_for_center N t l m (Some k) w) = Ok r ->
  exists K L z,
    NewVersion.V1_inspired_kernel_matrix N t l m = Ok K
    /\ la_cholesky K = Ok L
    /\ fst (np_random_randn1 N (seeded k w)) = Ok z
    /\ dot_vec f0 fadd fmul L z = Ok r.
Proof.
  unfold NewVersion.V1_inspired_weights_for_center.
  unfold bind at 1. rewrite seed_some.
  destruct (seed_ok k); [|discriminate].
  unfold bind at 1, lift at 1.
  destruct (NewVersion.V1_inspired_kernel_matrix N t l m) as [K|e] eqn:HK;
    [|discriminate].
  unfold bind at 1, lift at 1.
  destruct (la_cholesky K) as [L|e] eqn:HL; [|discriminate].
  unfold bind at 1.
  destruct (np_random_randn1 N (seeded k w)) as [[z|e] w1] eqn:Hz;
    [|discriminate].
  unfold lift. cbn [fst]. intros H.
  exists K, L, z. repeat split; [exact HL | exact H].
Qed.

Lemma randn1_any_world (N : nat) (k : Z) (w w0 : World) :
  fst (np_random_randn1 N (seeded k w0)) = fst (np_random_randn1 N (seeded k w)).
Proof. now apply rng_only_randn1. Qed.

Lemma randn1_total (N : nat) (w : World) :
  exists z, fst (np_random_randn1 N w) = Ok z.
Proof.
  assert (H : outcome (np_random_randn1 N) (fun _ => True) never).
  { unfold np_random_randn1.
    eapply outcome_weaken;
      [apply outcome_draw_list;
       now apply outcome_draw with (P := fun _ => True) | |];
      [intros; exact I | intros e He; exact He]. }
  specialize (H w). destruct (fst (np_random_randn1 N w)) as [z|e];
    [now exists z | contradiction].
Qed.
End SeededRows.

(** ** The estimators *)

Lemma bind_ok {S A B : Type} (m : Py S A) (k : A -> Py S B) (s s' : S)
    (b : B) :
  bind m k s = (Ok b, s') ->
  exists a s1, m s = (Ok a, s1) /\ k a s1 = (Ok b, s').
Proof.
  unfold bind. destruct (m s) as [[a|e] s1]; [|discriminate].
  intros H. now exists a, s1.
Qed.

(** A run that returns, written with the state it leaves. *)
Lemma run_ok {S A : Type} (r : result A * S) (a : A) :
  fst r = Ok a -> r = (Ok a, snd r).
Proof. destruct r as [x s]. cbn. now intros ->. Qed.

Lemma run_ok2 {S1 S2 A : Type} (r : result A * (S1 * S2)) (a : A) :
  fst r = Ok a -> r = (Ok a, (fst (snd r), snd (snd r))).
Proof. destruct r as [x [s1 s2]]. cbn. now intros ->. Qed.

Lemma rbind_ok {A B : Type} (r : result A) (k : A -> result B) (b : B) :
  rbind r k = Ok b -> exists a, r = Ok a /\ k a = Ok b.
Proof. destruct r as [a|e]; [|discriminate]. intros H. now exists a. Qed.

(** Splits an equation between two (result, state) pairs. *)
Ltac pair_inv H Hres Hst :=
  pose proof (f_equal fst H) as Hres;
  pose proof (f_equal snd H) as Hst;
  cbn [fst snd] in Hres, Hst; clear H;
  try (injection Hres as Hres).

Section LegacyEstimator.
Context {np : NumPy} {sk : Sklearn}.

(** What a successful [fit] of the first version leaves behind. *)
Lemma legacy_fit_ok (a a' : Legacy.RFClassifier) (w w' : World)
    (X : fmatrix) (y : list Z) :
  Legacy.fit X y (a, w) = (Ok tt, (a', w')) ->
  nrows X = length y
  /\ exists W XW c0 c k,
       Legacy.W_ a' = Some W
       /\ dot f0 fadd fmul X W = Ok XW
       /\ Legacy.clf a' = Legacy.ClfObj c
       /\ clf_fit (Legacy.nonlinearity a' XW) y c0 = (Ok tt, c)
       /\ Legacy.seed a' = Some k
       /\ Legacy._fitted a' = Some true.
Proof.
  unfold Legacy.fit. destruct (Nat.eqb_spec (nrows X) (length y)) as [Hd|Hd];
    cbn [negb]; [|discriminate].
  intros H. split; [exact Hd|].
  apply bind_ok in H as (self & s1 & H1 & H).
  unfold Legacy.self_ in H1. pair_inv H1 R1 T1. subst self s1. cbn [fst] in H.
  apply bind_ok in H as (sd & s2 & Hseed & H).
  assert (Hsd : Legacy.seed (fst s2) = Some sd).
  { destruct (Legacy.seed a) as [k|] eqn:Hk.
    - unfold ret in Hseed. pair_inv Hseed R2 T2. now subst sd s2.
    - apply bind_ok in Hseed as (k & s & _ & Hseed).
      apply bind_ok in Hseed as ([] & s0 & Hup & Hseed).
      unfold ret in Hseed. unfold Legacy.update in Hup.
      pair_inv Hseed R3 T3. pair_inv Hup R4 T4. now subst sd s2 s0. }
  apply bind_ok in H as ([] & s3 & Hclf & H).
  assert (Hs3 : Legacy.seed (fst s3) = Some sd).
  { destruct (Legacy.clf a) as [|ctor|c].
    - unfold Legacy.update in Hclf. pair_inv Hclf R5 T5. now subst s3.
    - apply bind_ok in Hclf as (c & s & Hc & Hclf).
      unfold lift in Hc. pair_inv Hc R6 T6.
      unfold Legacy.update in Hclf. pair_inv Hclf R7 T7. now subst s3 s.
    - discriminate. }
  apply bind_ok in H as (W & s4 & HW & H).
  assert (Hs4 : Legacy.seed (fst s4) = Some sd).
  { destruct (Legacy.weight_fun a) as [f|]; unfold Legacy.in_world in HW;
      match type of HW with (let (_, _) := ?m in _) = _ =>
        destruct m as [r w0] end; pair_inv HW R8 T8; now subst s4. }
  apply bind_ok in H as ([] & s5 & Hup & H).
  unfold Legacy.update in Hup. pair_inv Hup R9 T9. subst s5.
  apply bind_ok in H as (self & s6 & Hself & H).
  unfold Legacy.self_ in Hself. pair_inv Hself R10 T10. subst self s6.
  cbn [fst] in H.
  apply bind_ok in H as (Hm & s7 & HH & H).
  unfold lift in HH. pair_inv HH R11 T11. subst s7.
  apply rbind_ok in R11 as (W' & HW' & HH). injection HW' as <-.
  apply rbind_ok in HH as (XW & HXW & HH). injection HH as <-.
  apply bind_ok in H as ([] & s8 & Hfit & H).
  unfold Legacy.update in H. pair_inv H R12 T12.
  unfold Legacy.call_clf_fit in Hfit.
  cbn [fst snd Legacy.clf Legacy.set_W_] in Hfit.
  destruct (Legacy.clf (fst s4)) as [|ctor|c0]; try discriminate.
  destruct (clf_fit _ y c0) as [r c] eqn:Hc. pair_inv Hfit R13 T13.
  subst r s8. cbn [fst snd] in T12. injection T12 as <- <-.
  exists W, XW, c0, c, sd. cbn. repeat split; try assumption.
Qed.

(** A second [fit] calls the estimator instance the first one stored in
    [self.clf]. *)
Lemma legacy_fit_again (a : Legacy.RFClassifier) (w : World) (X : fmatrix)
    (y : list Z) (c : Clf) (k : Z) :
  Legacy.clf a = Legacy.ClfObj c -> Legacy.seed a = Some k ->
  Legacy.fit X y (a, w)
  = (Raise (if nrows X =? length y then TypeError else ValueError), (a, w)).
Proof.
  intros Hc Hk. unfold Legacy.fit.
  destruct (nrows X =? length y); cbn [negb]; [|reflexivity].
  unfold bind, Legacy.self_. cbn [fst]. rewrite Hk, Hc. reflexivity.
Qed.

Lemma legacy_fit_mismatch (a : Legacy.RFClassifier) (w : World) (X : fmatrix)
    (y : list Z) :
  nrows X <> length y ->
  Legacy.fit X y (a, w) = (Raise ValueError, (a, w)).
Proof.
  intros H. unfold Legacy.fit.
  now destruct (Nat.eqb_spec (nrows X) (length y)).
Qed.
End LegacyEstimator.

Section NewEstimator.
Context {np : NumPy} {sk : Sklearn}.

Lemma new_fit_transform_ok (a a1 : NewVersion.RFClassifier) (w w1 : World)
    (X : fmatrix) :
  NewVersion._fit_transform X (a, w) = (Ok tt, (a1, w1)) ->
  exists W XW pre,
    generate_weights a (ncols X) w = (Ok W, w1)
    /\ dot f0 fadd fmul X (transpose f0 W) = Ok XW
    /\ NewVersion.add_bias XW (NewVersion.bias a) = Ok pre
    /\ a1 = projected a W (NewVersion.nonlinearity a pre).
Proof.
  unfold NewVersion._fit_transform. intros H.
  apply bind_ok in H as (self & s1 & Hs & H).
  unfold NewVersion.self_ in Hs. pair_inv Hs R1 T1. subst self s1.
  cbn [fst] in H.
  apply bind_ok in H as (W & s2 & HW & H).
  assert (Hgen : generate_weights a (ncols X) w = (Ok W, snd s2)
                 /\ fst s2 = a).
  { unfold generate_weights.
    destruct (NewVersion.kwargs a); unfold NewVersion.in_world in HW;
      cbn [fst snd] in HW;
      match type of HW with (let (_, _) := ?m in _) = _ =>
        destruct m as [r w0] end;
      pair_inv HW R2 T2; subst r s2; now split. }
  destruct Hgen as [Hgen Ha]. destruct s2 as [a2 w2]. cbn [fst snd] in *.
  subst a2.
  apply bind_ok in H as ([] & s3 & Hup & H).
  unfold NewVersion.update in Hup. pair_inv Hup R3 T3. subst s3.
  apply bind_ok in H as ([] & s4 & Hup & H).
  unfold NewVersion.update in Hup. pair_inv Hup R4 T4. subst s4.
  apply bind_ok in H as (self & s5 & Hs & H).
  unfold NewVersion.self_ in Hs. pair_inv Hs R5 T5. subst self s5.
  cbn [fst snd] in H.
  apply bind_ok in H as (Hm & s6 & HH & H).
  unfold lift in HH. pair_inv HH R6 T6. subst s6.
  cbn [NewVersion.W_ NewVersion.b_ NewVersion.set_W_ NewVersion.set_b_
       NewVersion.nonlinearity attr rbind] in R6.
  apply rbind_ok in R6 as (XW & HXW & R6). cbn [rbind] in R6.
  apply rbind_ok in R6 as (pre & Hpre & R6). injection R6 as <-.
  unfold NewVersion.update in H. pair_inv H R7 T7.
  cbn [fst snd] in T7. injection T7 as <- <-.
  exists W, XW, pre. repeat split; assumption.
Qed.

Lemma new_fit_ok (a a' : NewVersion.RFClassifier) (w w' : World)
    (X : fmatrix) (y : list Z) :
  NewVersion.fit X y (a, w) = (Ok tt, (a', w')) ->
  exists W XW pre c coef intercept,
    generate_weights a (ncols X) w = (Ok W, w')
    /\ dot f0 fadd fmul X (transpose f0 W) = Ok XW
    /\ NewVersion.add_bias XW (NewVersion.bias a) = Ok pre
    /\ clf_fit (NewVersion.nonlinearity a pre) y (NewVersion.clf a)
       = (Ok tt, c)
    /\ clf_coef c = Some coef /\ clf_intercept c = Some intercept
    /\ a' = fitted a W (NewVersion.nonlinearity a pre) c coef intercept.
Proof.
  unfold NewVersion.fit. intros H.
  apply bind_ok in H as ([] & [a1 w1] & Hft & H).
  apply new_fit_transform_ok in Hft as (W & XW & pre & Hgen & HXW & Hpre & ->).
  apply bind_ok in H as ([] & s2 & Hfit & H).
  unfold NewVersion.call_clf_fit in Hfit. cbn in Hfit.
  destruct (clf_fit (NewVersion.nonlinearity a pre) y (NewVersion.clf a))
    as [r c] eqn:Hc.
  pair_inv Hfit R1 T1. subst r s2.
  apply bind_ok in H as (self & s3 & Hself & H).
  unfold NewVersion.self_ in Hself. pair_inv Hself R2 T2. subst self s3.
  cbn [fst NewVersion.clf NewVersion.set_clf] in H.
  destruct (clf_coef c) as [coef|] eqn:Hcoef; [|discriminate].
  apply bind_ok in H as ([] & s4 & Hup & H).
  unfold NewVersion.update in Hup. pair_inv Hup R3 T3. subst s4.
  destruct (clf_intercept c) as [intercept|] eqn:Hint; [|discriminate].
  unfold NewVersion.update in H. pair_inv H R4 T4.
  cbn [fst snd] in T4. injection T4 as <- <-.
  exists W, XW, pre, c, coef, intercept. repeat split; assumption.
Qed.

(** [fit] of the rewrite starts from scratch: what it leaves when it
    returns depends on the constructor's parameters, the inner classifier
    and the global random state, not on the attributes of an earlier fit. *)
Lemma new_fit_from_scratch (a : NewVersion.RFClassifier) (w : World)
    (X : fmatrix) (y : list Z) (s' : NewVersion.St) :
  NewVersion.fit X y (a, w) = (Ok tt, s') ->
  NewVersion.fit X y (unfitted a, w) = (Ok tt, s').
Proof.
  destruct s' as [a' w']. intros H.
  apply new_fit_ok in H
    as (W & XW & pre & c & coef & intercept & Hgen & HXW & Hpre & Hc & Hcoef
        & Hint & ->).
  unfold NewVersion.fit, NewVersion._fit_transform, NewVersion.self_,
    NewVersion.update, NewVersion.in_world, NewVersion.call_clf_fit.
  unfold generate_weights in Hgen. unfold bind, lift.
  cbn -[dot transpose NewVersion.add_bias].
  destruct (NewVersion.kwargs a); cbn [fst snd]; rewrite Hgen;
    cbn -[dot transpose NewVersion.add_bias]; rewrite HXW;
    cbn -[dot transpose NewVersion.add_bias]; rewrite Hpre;
    cbn -[dot transpose NewVersion.add_bias]; rewrite Hc; cbn;
    rewrite Hcoef; cbn; rewrite Hint; reflexivity.
Qed.

(** Once [_fit_transform] has returned, the weights, the bias and the
    representation are stored and the global random state is settled; what
    [fit] returns or raises is then decided by the inner classifier, the
    first to see [y]. *)
Lemma new_fit_after_projection (a a1 : NewVersion.RFClassifier)
    (w w1 : World) (X : fmatrix) (y : list Z) :
  NewVersion._fit_transform X (a, w) = (Ok tt, (a1, w1)) ->
  exists W H,
    generate_weights a (ncols X) w = (Ok W, w1)
    /\ a1 = projected a W H
    /\ fst (NewVersion.fit X y (a, w))
       = (let (r, c) := clf_fit H y (NewVersion.clf a) in
          _ <~ r ;;
          match clf_coef c, clf_intercept c with
          | Some _, Some _ => Ok tt
          | _, _ => Raise AttributeError
          end)
    /\ NewVersion.W_ (fst (snd (NewVersion.fit X y (a, w)))) = Some W
    /\ NewVersion.b_ (fst (snd (NewVersion.fit X y (a, w))))
       = Some (NewVersion.bias a)
    /\ NewVersion.H_ (fst (snd (NewVersion.fit X y (a, w)))) = Some H
    /\ snd (snd (NewVersion.fit X y (a, w))) = w1.
Proof.
  intros Hft. pose proof Hft as H0.
  apply new_fit_transform_ok in H0 as (W & XW & pre & Hgen & _ & _ & ->).
  exists W, (NewVersion.nonlinearity a pre).
  split; [exact Hgen|]. split; [reflexivity|].
  destruct (NewVersion.fit X y (a, w)) as [r [a' w']] eqn:Hfit.
  cbn [fst snd].
  unfold NewVersion.fit in Hfit. unfold bind at 1 in Hfit.
  rewrite Hft in Hfit.
  unfold bind at 1 in Hfit. unfold NewVersion.call_clf_fit in Hfit.
  cbn [fst snd projected NewVersion.H_ NewVersion.set_H_ attr NewVersion.clf
       NewVersion.set_b_ NewVersion.set_W_] in Hfit.
  destruct (clf_fit _ y _) as [[[]|e] c]; cbn [rbind].
  - unfold bind, NewVersion.self_, NewVersion.update, raise in Hfit.
    cbn [fst snd NewVersion.clf NewVersion.set_clf] in Hfit.
    destruct (clf_coef c) as [coef|]; cbn [fst snd] in Hfit.
    + destruct (clf_intercept c); cbn [fst snd] in Hfit;
        pair_inv Hfit R T; subst r; injection T as <- <-;
        repeat split.
    + pair_inv Hfit R T. subst r. injection T as <- <-. repeat split.
  - pair_inv Hfit R T. subst r. injection T as <- <-. repeat split.
Qed.

(** After [_fit_transform] returned, [fit] can still fail in the inner
    classifier, but the adapter keeps the weights it generated. *)
Lemma new_fit_keeps_weights (a a1 : NewVersion.RFClassifier) (w w1 : World)
    (X : fmatrix) (y : list Z) :
  NewVersion._fit_transform X (a, w) = (Ok tt, (a1, w1)) ->
  NewVersion.W_ (fst (snd (NewVersion.fit X y (a, w)))) = NewVersion.W_ a1
  /\ NewVersion.W_ a1 <> None.
Proof.
  intros H. pose proof H as H0.
  apply new_fit_transform_ok in H0 as (W & XW & pre & _ & _ & _ & ->).
  split; [|discriminate].
  unfold NewVersion.fit. unfold bind at 1. rewrite H.
  unfold bind at 1, NewVersion.call_clf_fit. cbn [fst snd].
  cbn [projected NewVersion.H_ NewVersion.set_H_ attr].
  destruct (clf_fit _ y _) as [[[]|e] c]; [|reflexivity].
  unfold bind, NewVersion.self_, NewVersion.update, raise. cbn [fst snd].
  destruct (clf_coef _); [|reflexivity].
  destruct (clf_intercept _); reflexivity.
Qed.
End NewEstimator.

(** * Main results: the weight generators *)

Section GeneratorResults.
Context {np : NumPy}.


(** C5. With an integer seed [k], what each generator returns (or raises)
    does not depend on the global random state it is called in: two calls
    with the same arguments and seed give the same array. *)
Theorem generators_deterministic (k : Z) (M N : nat) (w1 w2 : World) :
  fst (NewVersion.classical_weights M N (Some k) w1)
  = fst (NewVersion.classical_weights M N (Some k) w2)
  /\ (forall lowcut highcut,
        fst (NewVersion.haltere_inspired_weights M N lowcut highcut (Some k)
               w1)
        = fst (NewVersion.haltere_inspired_weights M N lowcut highcut
                 (Some k) w2))
  /\ (forall t l,
        fst (NewVersion.V1_inspired_weights M N t l (Some k) w1)
        = fst (NewVersion.V1_inspired_weights M N t l (Some k) w2))
  /\ (forall s,
        fst (Legacy.random_feature_matrix M N (Legacy.WStr s) (Some k) w1)
        = fst (Legacy.random_feature_matrix M N (Legacy.WStr s) (Some k) w2))
  /\ fst (Legacy.random_feature_matrix M N Legacy.WNone (Some k) w1)
     = fst (Legacy.random_feature_matrix M N Legacy.WNone (Some k) w2).
Proof.
  repeat split.
  - apply resets_classical.
  - intros lo hi. apply resets_haltere.
  - intros t l. apply resets_V1.
  - intros s. now apply resets_random_feature_matrix.
  - now apply resets_random_feature_matrix.
Qed.

(** C8. With [weights=None] and width equal to the number of features [n],
    the generator of the first version returns the n-by-n identity matrix:
    ones on the diagonal and zeros elsewhere. *)
Theorem identity_generator (n : nat) (rand_seed : option Z) (w : World) :
  seed_valid rand_seed ->
  exists W w',
    Legacy.random_feature_matrix n n Legacy.WNone rand_seed w = (Ok W, w')
    /\ shape W = (n, n)
    /\ forall i j, i < n -> j < n ->
         mat_get f0 W i j = if i =? j then f1 else f0.
Proof.
  intros Hs. pose proof (identity_result n n rand_seed Hs w) as H.
  destruct (Legacy.random_feature_matrix n n Legacy.WNone rand_seed w)
    as [[W|e] w']; cbn in H; [|contradiction].
  subst W. exists (np_eye n n), w'. split; [reflexivity|]. split.
  - apply shape_mat_init.
  - intros i j Hi Hj. unfold np_eye. now rewrite mat_get_init.
Qed.

(** C9 (as amended). For a number of features [N] that is not a perfect
    square and a width of at least one, the receptive-field generator raises
    [ValueError] and returns nothing: the grid of the kernel has
    ceil(sqrt(N))^2 points, more than [N], so the N-by-N jitter cannot be
    added to it. Only the centers are sampled below floor(sqrt(N)). *)
Theorem V1_rejects_nonsquare (M N : nat) (t l : F) (random_state : option Z)
    (w : World) :
  0 < M -> Nat.sqrt N * Nat.sqrt N <> N ->
  fst (NewVersion.V1_inspired_weights M N t l random_state w)
  = Raise ValueError.
Proof.
  intros HM HN.
  pose proof (V1_nonsquare_raises M N t l random_state HM HN w) as H.
  destruct (fst (NewVersion.V1_inspired_weights M N t l random_state w))
    as [W|e]; [contradiction | now subst e].
Qed.

(** C10. With an integer seed [k], the receptive-field generator reseeds
    the global generator with [k] before every row: each row is the
    Cholesky factor of the kernel of its own center applied to one and the
    same vector [z], the [N] standard normal numbers that follow
    [np.random.seed(k)]. Rows whose centers are equal are therefore equal. *)
Theorem V1_rows_determined_by_center (M N : nat) (t l : F) (k : Z)
    (w w' : World) (W : fmatrix) :
  NewVersion.V1_inspired_weights M N t l (Some k) w = (Ok W, w') ->
  exists (centers : matrix Z) (z : list F),
    (forall w0,
       fst (np_random_randint 0 (Z.of_nat (NewVersion.sqrt_floor N)) M 2
              (seeded k w0)) = Ok centers)
    /\ (forall w0, fst (np_random_randn1 N (seeded k w0)) = Ok z)
    /\ nrows centers = M /\ nrows W = M
    /\ (forall i, i < M ->
          exists K L,
            NewVersion.V1_inspired_kernel_matrix N t l (mat_row centers i)
            = Ok K
            /\ la_cholesky K = Ok L
            /\ dot_vec f0 fadd fmul L z = Ok (mat_row W i))
    /\ (forall i j, i < M -> j < M ->
          mat_row centers i = mat_row centers j ->
          mat_row W i = mat_row W j).
Proof.
  unfold NewVersion.V1_inspired_weights. intros H.
  apply bind_ok in H as ([] & s1 & Hseed & H).
  rewrite seed_some in Hseed. destruct (seed_ok k) eqn:Hk; [|discriminate].
  pair_inv Hseed R1 T1. subst s1.
  apply bind_ok in H as (centers & s2 & Hc & H).
  assert (Hshape : nrows centers = M).
  { destruct (randint_returns _ _ _ _ _ _ _ Hc) as [Hs _].
    shape_eqs Hs Hr Hcol. exact Hr. }
  apply V1_rows_characterised in H as (rs & Hrows & _ & Hlen & Hnth).
  cbn [rows app] in Hrows.
  destruct (randn1_total N (seeded k w)) as [z Hz].
  assert (HW : nrows W = M).
  { unfold nrows. rewrite Hrows, Hlen. exact Hshape. }
  assert (Hrow : forall i w0, i < M ->
            fst (NewVersion.V1_inspired_weights_for_center N t l
                   (mat_row centers i) (Some k) w0) = Ok (mat_row W i)).
  { intros i w0 Hi. unfold mat_row. rewrite Hrows. apply Hnth.
    unfold nrows in Hshape. now rewrite Hshape. }
  exists centers, z. repeat split.
  - intros w0.
    destruct (rng_only_randint 0 (Z.of_nat (NewVersion.sqrt_floor N)) M 2
                (seeded k w0) (seeded k w) eq_refl) as [E _].
    now rewrite E, Hc.
  - intros w0. now rewrite (randn1_any_world N k w w0).
  - exact Hshape.
  - exact HW.
  - intros i Hi.
    destruct (for_center_decompose N t l (mat_row centers i) k w _
                (Hrow i w Hi)) as (K & L & z' & HK & HL & Hz' & Hdot).
    rewrite Hz in Hz'. injection Hz' as <-. now exists K, L.
  - intros i j Hi Hj Heq.
    pose proof (Hrow i w Hi) as Ei. pose proof (Hrow j w Hj) as Ej.
    rewrite Heq in Ei. rewrite Ei in Ej. now injection Ej.
Qed.
End GeneratorResults.

(** * Main results: the estimators *)

Section EstimatorResults.
Context {np : NumPy} {sk : Sklearn}.


(** C3 (as amended). On a freshly constructed adapter every call fails,
    whatever the input: [transform] and [score] of the rewrite with the
    not-fitted error of [check_is_fitted]; [transform], [predict] and
    [score] of the first version, which has no such check, with the
    [AttributeError] of the missing [W_]. *)
Theorem unfitted_calls_fail :
  (forall width weight_fun bias nonlinearity clf kwargs random_state X y,
     let self := NewVersion.init width weight_fun bias nonlinearity clf
                   kwargs random_state in
     NewVersion.transform self X = Raise NotFittedError
     /\ NewVersion.score self X y = Raise NotFittedError)
  /\ (forall width weights nonlinearity clf weight_fun clf_args seed X y,
        let self := Legacy.init width weights nonlinearity clf weight_fun
                      clf_args seed in
        Legacy.transform self X = Raise AttributeError
        /\ Legacy.predict self X = Raise AttributeError
        /\ Legacy.score self X y = Raise AttributeError).
Proof. repeat split. Qed.

(** C4 (as amended). In the first version, [fit(X, y)] with
    [X.shape[0] != y.shape[0]] raises [ValueError] before anything else: no
    weights are generated, the global random state is not read and the
    adapter is unchanged. The rewrite does not compare the two lengths, for
    any [y]: its [fit] runs [_fit_transform(X)] first. When that raises,
    [fit] raises the same without looking at [y]. When it returns, the
    weight generator has been invoked, [W_], [b_] and [H_] are stored and
    the global random state is the one the generator left, all of which
    [fit] keeps; only then does the inner classifier see [y], and it
    decides what [fit] returns or raises. *)
Theorem fit_dimension_guard :
  (forall (a : Legacy.RFClassifier) (w : World) X y,
     nrows X <> length y ->
     Legacy.fit X y (a, w) = (Raise ValueError, (a, w)))
  /\ (forall (a a1 : NewVersion.RFClassifier) (w w1 : World) X y,
        NewVersion._fit_transform X (a, w) = (Ok tt, (a1, w1)) ->
        exists W H,
          generate_weights a (ncols X) w = (Ok W, w1)
          /\ NewVersion.W_ a1 = Some W
          /\ NewVersion.b_ a1 = Some (NewVersion.bias a)
          /\ NewVersion.H_ a1 = Some H
          /\ fst (NewVersion.fit X y (a, w))
             = (let (r, c) := clf_fit H y (NewVersion.clf a) in
                _ <~ r ;;
                match clf_coef c, clf_intercept c with
                | Some _, Some _ => Ok tt
                | _, _ => Raise AttributeError
                end)
          /\ NewVersion.W_ (fst (snd (NewVersion.fit X y (a, w)))) = Some W
          /\ NewVersion.b_ (fst (snd (NewVersion.fit X y (a, w))))
             = Some (NewVersion.bias a)
          /\ NewVersion.H_ (fst (snd (NewVersion.fit X y (a, w)))) = Some H
          /\ snd (snd (NewVersion.fit X y (a, w))) = w1)
  /\ (forall (a : NewVersion.RFClassifier) (w : World) X y e,
        fst (NewVersion._fit_transform X (a, w)) = Raise e ->
        NewVersion.fit X y (a, w)
        = (Raise e, snd (NewVersion._fit_transform X (a, w)))).
Proof.
  split; [|split].
  - intros a w X y H. now apply legacy_fit_mismatch.
  - intros a a1 w w1 X y H.
    destruct (new_fit_after_projection a a1 w w1 X y H)
      as (W & Hm & Hgen & -> & Hres & HW & Hb & HH & Hw).
    exists W, Hm. repeat split; assumption.
  - intros a w X y e H. unfold NewVersion.fit. unfold bind at 1.
    destruct (NewVersion._fit_transform X (a, w)) as [[[]|e'] s];
      cbn [fst snd] in *; [discriminate|]. now injection H as ->.
Qed.

(** C6. When [fit(X, y)] returns, [transform(X)] on the same [X] returns
    the very representation the fit computed: in the rewrite the stored
    [H_]; in the first version the array the inner classifier was fitted
    on. *)
Theorem fit_then_transform :
  (forall (a a' : NewVersion.RFClassifier) (w w' : World) X y,
     NewVersion.fit X y (a, w) = (Ok tt, (a', w')) ->
     exists H,
       NewVersion.H_ a' = Some H /\ NewVersion.transform a' X = Ok H)
  /\ (forall (a a' : Legacy.RFClassifier) (w w' : World) X y,
        Legacy.fit X y (a, w) = (Ok tt, (a', w')) ->
        exists H c0 c,
          Legacy.transform a' X = Ok H
          /\ clf_fit H y c0 = (Ok tt, c)
          /\ Legacy.clf a' = Legacy.ClfObj c).
Proof.
  split.
  - intros a a' w w' X y H.
    apply new_fit_ok in H
      as (W & XW & pre & c & coef & intercept & _ & HXW & Hpre & _ & _ & _
          & ->).
    exists (NewVersion.nonlinearity a pre). split; [reflexivity|].
    unfold NewVersion.transform.
    cbn -[dot transpose NewVersion.add_bias]. rewrite HXW.
    cbn -[dot transpose NewVersion.add_bias]. now rewrite Hpre.
  - intros a a' w w' X y H.
    apply legacy_fit_ok in H
      as (_ & W & XW & c0 & c & k & HW & HXW & Hclf & Hfit & _ & _).
    exists (Legacy.nonlinearity a' XW), c0, c. repeat split; try assumption.
    unfold Legacy.transform. rewrite HW. cbn. now rewrite HXW.
Qed.

(** C7, the first version. Once [fit] has returned, [self.clf] holds an
    estimator instance, and every later [fit] with matching lengths raises
    [TypeError] when it calls that instance; nothing is regenerated and the
    adapter and the global random state are left as they were. *)
Theorem legacy_second_fit_fails (a a' : Legacy.RFClassifier) (w w' : World)
    (X : fmatrix) (y : list Z) :
  Legacy.fit X y (a, w) = (Ok tt, (a', w')) ->
  forall X2 y2 w2,
    nrows X2 = length y2 ->
    Legacy.fit X2 y2 (a', w2) = (Raise TypeError, (a', w2)).
Proof.
  intros H X2 y2 w2 Hd.
  apply legacy_fit_ok in H
    as (_ & W & XW & c0 & c & k & _ & _ & Hclf & _ & Hseed & _).
  rewrite (legacy_fit_again a' w2 X2 y2 c k Hclf Hseed).
  now rewrite Hd, Nat.eqb_refl.
Qed.
End EstimatorResults.

(** * Further properties of the code *)

Section FeatureMap.
Context {np : NumPy} {sk : Sklearn}.

Lemma relu_shape_preserving (thrsh : F) :
  shape_preserving (fun x => NewVersion.relu x thrsh).
Proof. intros A. apply shape_mat_map. Qed.

Lemma poly_shape_preserving (power : Z) :
  shape_preserving (fun x => NewVersion.poly x power).
Proof. intros A. apply shape_mat_map. Qed.

Lemma nrows_transpose (W : fmatrix) : nrows (transpose f0 W) = ncols W.
Proof. unfold transpose. apply nrows_mat_init. Qed.

Lemma ncols_transpose (W : fmatrix) : ncols (transpose f0 W) = nrows W.
Proof. unfold transpose. apply ncols_mat_init. Qed.

(** The product [np.dot(X, W.T)] of [transform]. *)
Lemma projection_shape (X W : fmatrix) :
  ncols X = ncols W ->
  exists XW, dot f0 fadd fmul X (transpose f0 W) = Ok XW
             /\ shape XW = (nrows X, nrows W).
Proof.
  intros H.
  destruct (dot_shape f0 fadd fmul X (transpose f0 W)) as (XW & HXW & Hs).
  - now rewrite nrows_transpose.
  - exists XW. split; [exact HXW|]. now rewrite Hs, ncols_transpose.
Qed.

Lemma add_bias_shape (A : fmatrix) (b : NewVersion.bias_arg) :
  bias_fits (ncols A) b ->
  exists pre, NewVersion.add_bias A b = Ok pre /\ shape pre = shape A.
Proof.
  destruct b as [c|v]; cbn [bias_fits NewVersion.add_bias]; intros H.
  - eexists; split; [reflexivity|]. apply shape_mat_map.
  - apply broadcast2_shape.
    + apply broadcast_dim_one_r.
    + cbn [as_row ncols]. destruct H as [->| ->];
        [apply broadcast_dim_same | apply broadcast_dim_one_r].
Qed.

(** What [transform] evaluates once both attributes exist. *)
Lemma transform_fitted (a : NewVersion.RFClassifier) (W : fmatrix)
    (b : NewVersion.bias_arg) (X : fmatrix) :
  NewVersion.W_ a = Some W -> NewVersion.b_ a = Some b ->
  NewVersion.transform a X
  = spec_feature_map (NewVersion.nonlinearity a) W b X.
Proof.
  intros HW Hb. unfold NewVersion.transform, spec_feature_map.
  rewrite HW, Hb. cbn [NewVersion.check_is_fitted attr rbind].
  destruct (dot f0 fadd fmul X (transpose f0 W)); reflexivity.
Qed.

(** X1: [transform] of the rewrite returns one row per sample and one column
    per row of [W_], when the input has as many columns as [W_], the bias is
    a number or a 1-D array of that many entries (or of one), and the
    nonlinearity works entry by entry. *)
Theorem transform_shape (a : NewVersion.RFClassifier) (W : fmatrix)
    (b : NewVersion.bias_arg) (X : fmatrix) :
  NewVersion.W_ a = Some W -> NewVersion.b_ a = Some b ->
  shape_preserving (NewVersion.nonlinearity a) ->
  ncols X = ncols W -> bias_fits (nrows W) b ->
  exists H, NewVersion.transform a X = Ok H /\ shape H = (nrows X, nrows W).
Proof.
  intros HW Hb Hnl Hc Hbias.
  rewrite (transform_fitted a W b X HW Hb). unfold spec_feature_map.
  destruct (projection_shape X W Hc) as (XW & -> & Hs). cbn [rbind].
  shape_eqs Hs Hr Hcols.
  destruct (add_bias_shape XW b) as (pre & -> & Hp).
  { now rewrite Hcols. }
  cbn [rbind]. eexists; split; [reflexivity|].
  now rewrite Hnl, Hp.
Qed.

(** X2: a bias array whose length is neither 1 nor the number of rows of
    [W_] makes [transform] raise [ValueError], except when [W_] has a single
    row: then the bias broadcasts against the single column and the result
    has one column per bias entry. *)
Theorem bias_length_mismatch (a : NewVersion.RFClassifier) (W : fmatrix)
    (v : list F) (X : fmatrix) :
  NewVersion.W_ a = Some W ->
  NewVersion.b_ a = Some (NewVersion.BiasArray v) ->
  ncols X = ncols W -> length v <> nrows W -> length v <> 1 ->
  (nrows W <> 1 -> NewVersion.transform a X = Raise ValueError)
  /\ (nrows W = 1 -> shape_preserving (NewVersion.nonlinearity a) ->
      exists H, NewVersion.transform a X = Ok H
                /\ shape H = (nrows X, length v)).
Proof.
  intros HW Hb Hc Hlen Hone.
  rewrite (transform_fitted a W _ X HW Hb). unfold spec_feature_map.
  destruct (projection_shape X W Hc) as (XW & -> & Hs). cbn [rbind].
  shape_eqs Hs Hr Hcols. cbn [NewVersion.add_bias].
  split.
  - intros Hw. unfold broadcast2. cbn [as_row ncols].
    rewrite Hcols. unfold broadcast_dim at 2.
    destruct (Nat.eqb_spec (nrows W) (length v)); [congruence|].
    destruct (Nat.eqb_spec (nrows W) 1); [congruence|].
    destruct (Nat.eqb_spec (length v) 1); [congruence|].
    now destruct (broadcast_dim _ _).
  - intros Hw Hnl.
    destruct (broadcast2_shape f0 f0 fadd XW (as_row v) (nrows X) (length v))
      as (pre & -> & Hp).
    + rewrite Hr. apply broadcast_dim_one_r.
    + cbn [as_row ncols]. rewrite Hcols, Hw. apply broadcast_dim_one_l.
    + cbn [rbind]. eexists; split; [reflexivity|]. now rewrite Hnl.
Qed.

(** X3: once [W_] and [b_] exist, an input whose number of columns differs
    from that of [W_] makes [transform] and [score] of the rewrite raise
    [ValueError], whatever the bias, the nonlinearity and the classifier. *)
Theorem new_feature_count_mismatch (a : NewVersion.RFClassifier)
    (W : fmatrix) (b : NewVersion.bias_arg) (X : fmatrix) (y : list Z) :
  NewVersion.W_ a = Some W -> NewVersion.b_ a = Some b ->
  ncols X <> ncols W ->
  NewVersion.transform a X = Raise ValueError
  /\ NewVersion.score a X y = Raise ValueError.
Proof.
  intros HW Hb Hc.
  assert (Ht : NewVersion.transform a X = Raise ValueError).
  { rewrite (transform_fitted a W b X HW Hb). unfold spec_feature_map.
    rewrite dot_mismatch; [reflexivity|]. now rewrite nrows_transpose. }
  split; [exact Ht|]. unfold NewVersion.score. now rewrite Ht.
Qed.

(** X4: the first version stores [W_] with one row per feature: an input
    whose number of columns differs from the number of rows of [W_] makes
    [transform], [predict] and [score] raise [ValueError]. *)
Theorem legacy_feature_count_mismatch (a : Legacy.RFClassifier)
    (W : fmatrix) (X : fmatrix) (y : list Z) :
  Legacy.W_ a = Some W -> ncols X <> nrows W ->
  Legacy.transform a X = Raise ValueError
  /\ Legacy.predict a X = Raise ValueError
  /\ Legacy.score a X y = Raise ValueError.
Proof.
  intros HW Hc.
  unfold Legacy.transform, Legacy.predict, Legacy.score.
  rewrite HW. cbn [attr rbind]. rewrite (dot_mismatch _ _ _ _ _ Hc).
  repeat split; reflexivity.
Qed.
End FeatureMap.

Section FittedState.
Context {np : NumPy} {sk : Sklearn}.

Lemma feature_map_error (nl : fmatrix -> fmatrix) (W : fmatrix)
    (b : NewVersion.bias_arg) (X : fmatrix) (e : exn) :
  spec_feature_map nl W b X = Raise e -> e = ValueError.
Proof.
  unfold spec_feature_map, dot.
  destruct (ncols X =? nrows (transpose f0 W)); cbn [rbind];
    [|intros H; now injection H].
  destruct b as [c|v]; cbn [NewVersion.add_bias rbind]; [discriminate|].
  unfold broadcast2.
  destruct (broadcast_dim _ _); [destruct (broadcast_dim _ _)|];
    cbn [rbind]; try discriminate; intros H; now injection H.
Qed.

(** The attributes of the adapter a successful [fit] leaves. *)
Lemma fitted_attributes (a : NewVersion.RFClassifier) (W H : fmatrix)
    (c : Clf) (coef : fmatrix) (intercept : list F) :
  let a' := fitted a W H c coef intercept in
  NewVersion.W_ a' = Some W /\ NewVersion.b_ a' = Some (NewVersion.bias a)
  /\ NewVersion.H_ a' = Some H /\ NewVersion.clf a' = c
  /\ NewVersion.coef_ a' = Some coef
  /\ NewVersion.intercept_ a' = Some intercept
  /\ NewVersion.nonlinearity a' = NewVersion.nonlinearity a.
Proof. cbn. repeat split. Qed.

(** X5: after a successful [fit] of the rewrite, [coef_] and [intercept_]
    are those of the inner classifier, [score] passes both fitted checks
    and is the classifier's score on [transform(X)], and [transform] can
    only fail with [ValueError]. *)
Theorem fitted_adapter_is_usable (a a' : NewVersion.RFClassifier)
    (w w' : World) (X : fmatrix) (y : list Z) :
  NewVersion.fit X y (a, w) = (Ok tt, (a', w')) ->
  NewVersion.coef_ a' = clf_coef (NewVersion.clf a')
  /\ NewVersion.intercept_ a' = clf_intercept (NewVersion.clf a')
  /\ (forall X' y',
        NewVersion.score a' X' y'
        = (H <~ NewVersion.transform a' X' ;;
           clf_score (NewVersion.clf a') H y'))
  /\ (forall X' e, NewVersion.transform a' X' = Raise e -> e = ValueError).
Proof.
  intros Hfit.
  apply new_fit_ok in Hfit
    as (W & XW & pre & c & coef & intercept & _ & _ & _ & _ & Hcoef & Hint
        & ->).
  destruct (fitted_attributes a W (NewVersion.nonlinearity a pre) c coef
              intercept) as (HW & Hb & _ & Hc & Hco & Hin & _).
  rewrite Hc, Hco, Hin. split; [now symmetry|]. split; [now symmetry|].
  split.
  - intros X' y'. unfold NewVersion.score. rewrite ?Hc, ?Hco, ?Hin.
    now destruct (NewVersion.transform _ X').
  - intros X' e. rewrite (transform_fitted _ W _ X' HW Hb).
    apply feature_map_error.
Qed.

(** X6: when [fit] of the rewrite raises after [_fit_transform] returned
    (the inner classifier rejected the data, or it has no [coef_] or
    [intercept_]), an adapter that was never fitted is left half fitted:
    [H_] is stored and [transform] returns it, while [score] raises the
    not-fitted error. *)
Theorem failed_fit_leaves_half_fitted (a a1 : NewVersion.RFClassifier)
    (w w1 : World) (X : fmatrix) (y : list Z) (e : exn) :
  NewVersion.intercept_ a = None ->
  NewVersion._fit_transform X (a, w) = (Ok tt, (a1, w1)) ->
  fst (NewVersion.fit X y (a, w)) = Raise e ->
  let a' := fst (snd (NewVersion.fit X y (a, w))) in
  exists H,
    NewVersion.H_ a' = Some H
    /\ NewVersion.transform a' X = Ok H
    /\ forall y', NewVersion.score a' X y' = Raise NotFittedError.
Proof.
  intros Hnone Hft Hraise. pose proof Hft as H0.
  apply new_fit_transform_ok in H0 as (W & XW & pre & _ & HXW & Hpre & ->).
  set (H := NewVersion.nonlinearity a pre).
  assert (Hgen : forall a' : NewVersion.RFClassifier,
            NewVersion.W_ a' = Some W ->
            NewVersion.b_ a' = Some (NewVersion.bias a) ->
            NewVersion.nonlinearity a' = NewVersion.nonlinearity a ->
            NewVersion.H_ a' = Some H ->
            NewVersion.intercept_ a' = None ->
            exists H0,
              NewVersion.H_ a' = Some H0
              /\ NewVersion.transform a' X = Ok H0
              /\ forall y', NewVersion.score a' X y' = Raise NotFittedError).
  { intros a' HW Hb Hnl HH Hin. exists H.
    assert (Ht : NewVersion.transform a' X = Ok H).
    { rewrite (transform_fitted a' W _ X HW Hb). unfold spec_feature_map.
      rewrite HXW. cbn [rbind]. rewrite Hpre. cbn [rbind].
      now rewrite Hnl. }
    repeat split; [exact HH | exact Ht |].
    intros y'. unfold NewVersion.score. rewrite Ht, Hin. cbn [rbind].
    now destruct (NewVersion.coef_ a'). }
  cbv zeta. revert Hraise.
  destruct (NewVersion.fit X y (a, w)) as [r [a' w']] eqn:Hfit.
  cbn [fst snd]. intros ->.
  unfold NewVersion.fit in Hfit. unfold bind at 1 in Hfit.
  rewrite Hft in Hfit.
  unfold bind at 1 in Hfit. unfold NewVersion.call_clf_fit in Hfit.
  cbn [fst snd projected NewVersion.H_ NewVersion.set_H_ attr] in Hfit.
  destruct (clf_fit _ y _) as [[[]|e'] c].
  - unfold bind, NewVersion.self_, NewVersion.update, raise in Hfit.
    cbn [fst snd NewVersion.clf NewVersion.set_clf] in Hfit.
    destruct (clf_coef c) as [coef|]; cbn [fst snd] in Hfit.
    + destruct (clf_intercept c); cbn [fst snd] in Hfit; [discriminate|].
      pair_inv Hfit R T. injection T as <- _.
      apply Hgen; try reflexivity. exact Hnone.
    + pair_inv Hfit R T. injection T as <- _.
      apply Hgen; try reflexivity. exact Hnone.
  - pair_inv Hfit R T. injection T as <- _.
    apply Hgen; try reflexivity. exact Hnone.
Qed.

(** X7: [clf_wrapper], once its [fit] returned: the adapter holds [H_], the
    train score is the classifier's score on that stored [H_], the test
    score is [score] on the test data, the scores come back as
    (train, test) with the adapter added when [return_clf] is set, and the
    global random state is the one [fit] left. *)
Theorem clf_wrapper_after_fit (p : NewVersion.params)
    (X_train : fmatrix) (y_train : list Z) (X_test : fmatrix)
    (y_test : list Z) (return_clf : bool) (w w' : World)
    (a' : NewVersion.RFClassifier) :
  NewVersion.fit X_train y_train (NewVersion.construct p, w)
  = (Ok tt, (a', w')) ->
  exists H,
    NewVersion.H_ a' = Some H
    /\ NewVersion.clf_wrapper p X_train y_train X_test y_test return_clf w
       = (test_error <~ NewVersion.score a' X_test y_test ;;
          train_error <~ clf_score (NewVersion.clf a') H y_train ;;
          Ok (train_error, test_error,
              if return_clf then Some a' else None),
          w').
Proof.
  intros Hfit. unfold NewVersion.clf_wrapper. rewrite Hfit.
  cbn [fst snd rbind].
  apply new_fit_ok in Hfit
    as (W & XW & pre & c & coef & intercept & _ & HXW & Hpre & _ & _ & _
        & ->).
  exists (NewVersion.nonlinearity (NewVersion.construct p) pre).
  split; [reflexivity|]. f_equal.
  destruct (NewVersion.score _ X_test y_test); cbn [rbind]; [|reflexivity].
  unfold NewVersion.score at 1.
  erewrite transform_fitted by reflexivity.
  unfold spec_feature_map. rewrite HXW. cbn [rbind]. rewrite Hpre.
  reflexivity.
Qed.

(** [clf_wrapper] raises what [fit] raises, and scores nothing then. *)
Lemma clf_wrapper_fit_raises (p : NewVersion.params)
    (X_train : fmatrix) (y_train : list Z) (X_test : fmatrix)
    (y_test : list Z) (return_clf : bool) (w : World) (e : exn) :
  fst (NewVersion.fit X_train y_train (NewVersion.construct p, w)) = Raise e ->
  fst (NewVersion.clf_wrapper p X_train y_train X_test y_test return_clf w)
  = Raise e.
Proof.
  unfold NewVersion.clf_wrapper.
  destruct (NewVersion.fit _ _ _) as [r s]. cbn [fst]. now intros ->.
Qed.
End FittedState.

Section Reproducibility.
Context {np : NumPy} {sk : Sklearn}.

Lemma resets_raise {A : Type} (e : exn) : resets (raise (A := A) e).
Proof. intros w1 w2. now split. Qed.

(** The three generators of the rewrite under the call protocol, with an
    integer [random_state]. *)
Lemma resets_builtin_fun (f : NewVersion.weight_function) (M N : nat)
    (kw : pydict) (k : Z) :
  f = NewVersion.classical_weights_fun
  \/ f = NewVersion.haltere_inspired_weights_fun
  \/ f = NewVersion.V1_inspired_weights_fun ->
  resets (f M N kw (Some k)).
Proof.
  intros [->|[->| ->]].
  - unfold NewVersion.classical_weights_fun.
    destruct kw; [apply resets_classical | apply resets_raise].
  - unfold NewVersion.haltere_inspired_weights_fun.
    repeat match goal with
           | |- resets (match ?x with _ => _ end) => destruct x
           end;
      first [ apply resets_haltere | apply resets_raise
            | apply resets_bind;
              [apply resets_seed | intros _; apply rng_only_raise] ].
  - unfold NewVersion.V1_inspired_weights_fun.
    repeat match goal with
           | |- resets (match ?x with _ => _ end) => destruct x
           end; first [apply resets_V1 | apply resets_raise].
Qed.

(** [fit] of the rewrite reads the global random state through the weight
    function only. *)
Lemma new_fit_world_independent (a : NewVersion.RFClassifier) (X : fmatrix)
    (y : list Z) (w1 w2 : World) :
  resets (generate_weights a (ncols X)) ->
  fst (NewVersion.fit X y (a, w1)) = fst (NewVersion.fit X y (a, w2))
  /\ fst (snd (NewVersion.fit X y (a, w1)))
     = fst (snd (NewVersion.fit X y (a, w2))).
Proof.
  intros H. destruct (H w1 w2) as [Hres _]. unfold generate_weights in Hres.
  unfold NewVersion.fit, NewVersion._fit_transform, bind, NewVersion.self_,
    NewVersion.in_world, NewVersion.update, lift, NewVersion.call_clf_fit,
    raise.
  cbn [fst snd].
  destruct (NewVersion.kwargs a) as [kw|]; cbn [fst snd];
    match type of Hres with
    | fst (?m w1) = _ =>
        destruct (m w1) as [r1 w1'], (m w2) as [r2 w2']
    end;
    cbn [fst] in Hres; subst r2; (destruct r1 as [W|e]; [|now split]);
    cbn -[dot transpose NewVersion.add_bias];
    (destruct (dot f0 fadd fmul X (transpose f0 W)) as [XW|e];
       cbn -[NewVersion.add_bias]; [|now split]);
    (destruct (NewVersion.add_bias XW (NewVersion.bias a)) as [pre|e];
       cbn; [|now split]);
    (destruct (clf_fit _ y _) as [[[]|e] c]; cbn; [|now split]);
    (destruct (clf_coef c); cbn; [|now split]);
    (destruct (clf_intercept c); cbn; now split).
Qed.

(** X8: with an integer [random_state] and one of the three generators of
    the module as weight function, what [fit] of the rewrite returns or
    raises and the adapter it leaves do not depend on the state of the
    global generator it is called in. *)
Theorem seeded_fit_is_reproducible (a : NewVersion.RFClassifier) (k : Z)
    (X : fmatrix) (y : list Z) (w1 w2 : World) :
  NewVersion.random_state a = Some k ->
  NewVersion.weight_fun a = NewVersion.classical_weights_fun
  \/ NewVersion.weight_fun a = NewVersion.haltere_inspired_weights_fun
  \/ NewVersion.weight_fun a = NewVersion.V1_inspired_weights_fun ->
  fst (NewVersion.fit X y (a, w1)) = fst (NewVersion.fit X y (a, w2))
  /\ fst (snd (NewVersion.fit X y (a, w1)))
     = fst (snd (NewVersion.fit X y (a, w2))).
Proof.
  intros Hk Hf. apply new_fit_world_independent.
  unfold generate_weights. rewrite Hk.
  destruct (NewVersion.kwargs a);
    apply (resets_builtin_fun (NewVersion.weight_fun a)); exact Hf.
Qed.

(** X9: with an integer [seed], no [weight_fun] and a string or [None] as
    [weights], what [fit] of the first version returns or raises and the
    adapter it leaves do not depend on the state of the global generator it
    is called in. *)
Theorem legacy_seeded_fit_is_reproducible (a : Legacy.RFClassifier) (k : Z)
    (X : fmatrix) (y : list Z) (w1 w2 : World) :
  Legacy.seed a = Some k -> Legacy.weight_fun a = None ->
  builtin_weights (Legacy.weights a) ->
  fst (Legacy.fit X y (a, w1)) = fst (Legacy.fit X y (a, w2))
  /\ fst (snd (Legacy.fit X y (a, w1))) = fst (snd (Legacy.fit X y (a, w2))).
Proof.
  intros Hk Hf Hw.
  destruct (resets_random_feature_matrix (Legacy.width a) (ncols X)
              (Legacy.weights a) k Hw w1 w2) as [Hres _].
  unfold Legacy.fit. destruct (negb (nrows X =? length y)); [now split|].
  unfold bind, Legacy.self_, Legacy.in_world, Legacy.update, lift,
    Legacy.call_clf_fit, raise, ret.
  cbn [fst snd]. rewrite Hk, Hf.
  destruct (Legacy.clf a) as [|ctor|c0]; cbn [fst snd]; [| |now split].
  - cbn [Legacy.width Legacy.weights Legacy.set_clf].
    destruct (Legacy.random_feature_matrix _ _ _ _ w1) as [r1 w1'],
      (Legacy.random_feature_matrix _ _ _ _ w2) as [r2 w2'].
    cbn [fst] in Hres; subst r2. destruct r1 as [W|e]; [|now split].
    cbn -[dot].
    destruct (dot f0 fadd fmul X W) as [XW|e]; cbn; [|now split].
    destruct (clf_fit _ y _) as [[[]|e] c]; cbn; now split.
  - destruct (ctor (Legacy.clf_args a)) as [c0|e]; cbn [fst snd];
      [|now split].
    cbn [Legacy.width Legacy.weights Legacy.set_clf].
    destruct (Legacy.random_feature_matrix _ _ _ _ w1) as [r1 w1'],
      (Legacy.random_feature_matrix _ _ _ _ w2) as [r2 w2'].
    cbn [fst] in Hres; subst r2. destruct r1 as [W|e]; [|now split].
    cbn -[dot].
    destruct (dot f0 fadd fmul X W) as [XW|e]; cbn; [|now split].
    destruct (clf_fit _ y _) as [[[]|e] c]; cbn; now split.
Qed.
End Reproducibility.

Section GlobalState.
Context {np : NumPy} {sk : Sklearn}.

Lemma resets_overwrites {A : Type} (m : Py World A) :
  resets m -> overwrites_rng m.
Proof.
  intros H w1 w2 r w1' Hrun. destruct (H w1 w2) as [_ Hg].
  rewrite Hrun in Hg. cbn [fst snd] in Hg. now symmetry.
Qed.

(** X10: a generator called with an integer seed overwrites the global
    generator of the numeric library: when it returns, the state it leaves
    does not depend on the state it found. *)
Theorem seeded_generators_overwrite_global_state (k : Z) (M N : nat) :
  overwrites_rng (NewVersion.classical_weights M N (Some k))
  /\ (forall lowcut highcut,
        overwrites_rng
          (NewVersion.haltere_inspired_weights M N lowcut highcut (Some k)))
  /\ (forall t l,
        overwrites_rng (NewVersion.V1_inspired_weights M N t l (Some k)))
  /\ (forall s,
        overwrites_rng
          (Legacy.random_feature_matrix M N (Legacy.WStr s) (Some k)))
  /\ overwrites_rng (Legacy.random_feature_matrix M N Legacy.WNone (Some k)).
Proof.
  split; [|split; [|split; [|split]]]; intros; apply resets_overwrites;
    first [ apply resets_classical | apply resets_haltere | apply resets_V1
          | now apply resets_random_feature_matrix ].
Qed.

(** X11: an integer seed outside [0, 2^32) makes every generator raise
    [ValueError] at once: nothing is drawn and the global random state is
    left as it was. *)
Theorem invalid_seed_rejected (k : Z) (M N : nat) (w : World) :
  (k < 0 \/ 2 ^ 32 <= k)%Z ->
  NewVersion.classical_weights M N (Some k) w = (Raise ValueError, w)
  /\ (forall lowcut highcut,
        NewVersion.haltere_inspired_weights M N lowcut highcut (Some k) w
        = (Raise ValueError, w))
  /\ (forall t l,
        NewVersion.V1_inspired_weights M N t l (Some k) w
        = (Raise ValueError, w))
  /\ (forall weights,
        Legacy.random_feature_matrix M N weights (Some k) w
        = (Raise ValueError, w)).
Proof.
  intros Hk.
  assert (Hs : np_random_seed (Some k) w = (Raise ValueError, w)).
  { unfold np_random_seed, seed_ok.
    destruct (Z.leb_spec 0 k); destruct (Z.ltb_spec k (2 ^ 32));
      cbn [andb]; try reflexivity; lia. }
  unfold NewVersion.classical_weights, NewVersion.haltere_inspired_weights,
    NewVersion.V1_inspired_weights, Legacy.random_feature_matrix.
  repeat split; intros; unfold bind at 1; try unfold ret at 1;
    try unfold bind at 1; now rewrite Hs.
Qed.

(** The seed the first version's generator reseeds with when it is given
    none: a draw below 1000 from the global generator. *)
Lemma drawn_seed (w : World) :
  exists k w1,
    np_random_randint0 1000 w = (Ok k, w1) /\ (0 <= k < 1000)%Z
    /\ entropy_reads w1 = entropy_reads w.
Proof.
  pose proof (outcome_randint0 1000 never ltac:(lia) w) as H.
  unfold np_random_randint0 in *.
  destruct (Z.leb_spec 1000 0); [lia|].
  unfold randint1, bind, draw, ret in *.
  destruct (next_below (1000 - 0) (rng w)) as [k g]. cbn [fst] in H.
  eexists; eexists; repeat split; [apply H | apply H].
Qed.

Lemma small_seed_ok (k : Z) : (0 <= k < 1000)%Z -> seed_ok k = true.
Proof.
  intros H. unfold seed_ok. change (2 ^ 32)%Z with 4294967296%Z.
  apply andb_true_intro. split; [apply Z.leb_le | apply Z.ltb_lt]; lia.
Qed.

Lemma unseeded_matrix_run (M N : nat) (weights : Legacy.weights_arg)
    (w : World) :
  exists k w1,
    (0 <= k < 1000)%Z
    /\ Legacy.random_feature_matrix M N weights None w
       = Legacy.random_feature_matrix M N weights (Some k) w1.
Proof.
  destruct (drawn_seed w) as (k & w1 & Hk & Hr & _).
  exists k, w1. split; [exact Hr|].
  unfold Legacy.random_feature_matrix. unfold bind at 1. rewrite Hk.
  reflexivity.
Qed.

(** X12: called without a seed, [random_feature_matrix] returns what it
    returns for one of the seeds 0, ..., 999: with its built-in weights it
    has at most 1000 results for given sizes. *)
Theorem unseeded_matrix_is_a_seeded_one (M N : nat)
    (weights : Legacy.weights_arg) (w : World) :
  builtin_weights weights ->
  exists k,
    (0 <= k < 1000)%Z
    /\ forall w0,
         fst (Legacy.random_feature_matrix M N weights None w)
         = fst (Legacy.random_feature_matrix M N weights (Some k) w0).
Proof.
  intros Hw. destruct (unseeded_matrix_run M N weights w) as (k & w1 & Hk & ->).
  exists k. split; [exact Hk|]. intros w0.
  apply (resets_random_feature_matrix M N weights k Hw).
Qed.

(** X13: a [weights] string other than the two known ones is taken for a
    callable: [random_feature_matrix] raises [TypeError], after it has
    reseeded the global generator. *)
Theorem unknown_weights_string (M N : nat) (s : string)
    (rand_seed : option Z) (w : World) :
  s <> "unimodal"%string -> s <> "white noise"%string ->
  seed_valid rand_seed ->
  exists k w',
    Legacy.random_feature_matrix M N (Legacy.WStr s) rand_seed w
    = (Raise TypeError, w')
    /\ rng w' = init_by_seed k
    /\ match rand_seed with
       | Some k0 => k = k0
       | None => (0 <= k < 1000)%Z
       end.
Proof.
  intros H1 H2 Hs.
  assert (Hrun : forall k w1, seed_ok k = true ->
            Legacy.random_feature_matrix M N (Legacy.WStr s) (Some k) w1
            = (Raise TypeError, seeded k w1)).
  { intros k w1 Hk. unfold Legacy.random_feature_matrix.
    unfold bind at 1, ret at 1. unfold bind at 1.
    unfold np_random_seed. rewrite Hk.
    apply String.eqb_neq in H1, H2. rewrite H1, H2. reflexivity. }
  destruct rand_seed as [k0|].
  - exists k0, (seeded k0 w). rewrite (Hrun k0 w Hs). now repeat split.
  - destruct (unseeded_matrix_run M N (Legacy.WStr s) w)
      as (k & w1 & Hk & ->).
    exists k, (seeded k w1). rewrite (Hrun k w1 (small_seed_ok k Hk)).
    now repeat split.
Qed.
End GlobalState.

Section StoredSeed.
Context {np : NumPy} {sk : Sklearn}.

(** Where the weights of a successful [fit] of the first version come
    from, when no [weight_fun] was given. *)
Lemma legacy_fit_generates (a a' : Legacy.RFClassifier) (w w' : World)
    (X : fmatrix) (y : list Z) :
  Legacy.fit X y (a, w) = (Ok tt, (a', w')) ->
  Legacy.weight_fun a = None ->
  exists k W w1 w2,
    Legacy.seed a' = Some k /\ Legacy.W_ a' = Some W
    /\ Legacy.random_feature_matrix (Legacy.width a) (ncols X)
         (Legacy.weights a) (Some k) w1 = (Ok W, w2)
    /\ match Legacy.seed a with
       | Some k0 => k = k0
       | None => (0 <= k < 1000)%Z
       end.
Proof.
  unfold Legacy.fit. destruct (negb (nrows X =? length y)); [discriminate|].
  intros H Hwf.
  apply bind_ok in H as (self & s1 & H1 & H).
  unfold Legacy.self_ in H1. pair_inv H1 R1 T1. subst self s1. cbn [fst] in H.
  apply bind_ok in H as (sd & s2 & Hseed & H).
  assert (Hsd : Legacy.seed (fst s2) = Some sd
                /\ match Legacy.seed a with
                   | Some k0 => sd = k0
                   | None => (0 <= sd < 1000)%Z
                   end).
  { destruct (Legacy.seed a) as [k|] eqn:Hk.
    - unfold ret in Hseed. pair_inv Hseed R2 T2. now subst sd s2.
    - apply bind_ok in Hseed as (k & s & Hdraw & Hseed).
      apply bind_ok in Hseed as ([] & s0 & Hup & Hseed).
      unfold ret in Hseed. unfold Legacy.update in Hup.
      pair_inv Hseed R3 T3. pair_inv Hup R4 T4. subst sd s2 s0.
      split; [reflexivity|].
      unfold Legacy.in_world in Hdraw. cbn [snd] in Hdraw.
      destruct (drawn_seed w) as (k' & w1 & Hk' & Hr & _).
      rewrite Hk' in Hdraw. pair_inv Hdraw R5 T5. now subst k'. }
  destruct Hsd as [Hsd Hrange].
  apply bind_ok in H as ([] & s3 & Hclf & H).
  assert (Hs3 : Legacy.seed (fst s3) = Some sd).
  { destruct (Legacy.clf a) as [|ctor|c].
    - unfold Legacy.update in Hclf. pair_inv Hclf R5 T5. now subst s3.
    - apply bind_ok in Hclf as (c & s & Hc & Hclf).
      unfold lift in Hc. pair_inv Hc R6 T6.
      unfold Legacy.update in Hclf. pair_inv Hclf R7 T7. now subst s3 s.
    - discriminate. }
  rewrite Hwf in H.
  apply bind_ok in H as (W & s4 & HW & H).
  unfold Legacy.in_world in HW.
  destruct (Legacy.random_feature_matrix _ _ _ _ (snd s3)) as [r w0] eqn:Hgen.
  pair_inv HW R8 T8. subst r s4.
  apply bind_ok in H as ([] & s5 & Hup & H).
  unfold Legacy.update in Hup. pair_inv Hup R9 T9. subst s5.
  apply bind_ok in H as (self & s6 & Hself & H).
  unfold Legacy.self_ in Hself. pair_inv Hself R10 T10. subst self s6.
  cbn [fst] in H.
  apply bind_ok in H as (Hm & s7 & HH & H).
  unfold lift in HH. pair_inv HH R11 T11. subst s7.
  apply bind_ok in H as ([] & s8 & Hfit & H).
  unfold Legacy.update in H. pair_inv H R12 T12.
  unfold Legacy.call_clf_fit in Hfit.
  cbn [fst snd Legacy.clf Legacy.set_W_] in Hfit.
  destruct (Legacy.clf (fst s3)) as [|ctor|c0]; try discriminate.
  destruct (clf_fit _ y c0) as [r c] eqn:Hc. pair_inv Hfit R13 T13.
  subst r s8. cbn [fst snd] in T12. injection T12 as <- <-.
  exists sd, W, (snd s3), w0. cbn. repeat split; assumption.
Qed.

(** X14: after a successful [fit] of the first version with built-in
    weights, the adapter holds the seed its weights were generated from: the
    one it was given, or the one below 1000 it drew, and
    [random_feature_matrix] returns the stored [W_] for that seed from any
    state of the global generator. *)
Theorem legacy_fit_stores_its_seed (a a' : Legacy.RFClassifier)
    (w w' : World) (X : fmatrix) (y : list Z) :
  Legacy.fit X y (a, w) = (Ok tt, (a', w')) ->
  Legacy.weight_fun a = None -> builtin_weights (Legacy.weights a) ->
  exists k W,
    Legacy.seed a' = Some k /\ Legacy.W_ a' = Some W
    /\ match Legacy.seed a with
       | Some k0 => k = k0
       | None => (0 <= k < 1000)%Z
       end
    /\ forall w0,
         fst (Legacy.random_feature_matrix (Legacy.width a) (ncols X)
                (Legacy.weights a) (Some k) w0) = Ok W.
Proof.
  intros Hfit Hwf Hw.
  destruct (legacy_fit_generates a a' w w' X y Hfit Hwf)
    as (k & W & w1 & w2 & Hk & HW & Hgen & Hrange).
  exists k, W. repeat split; try assumption.
  intros w0.
  destruct (resets_random_feature_matrix (Legacy.width a) (ncols X)
              (Legacy.weights a) k Hw w0 w1) as [-> _].
  now rewrite Hgen.
Qed.
End StoredSeed.

Section Entropy.
Context {np : NumPy}.

Lemma reseeds_ret {A : Type} (a : A) : reseeds (ret a) 0.
Proof. intros w r w' H. unfold ret in H. pair_inv H R T. subst w'. lia. Qed.

Lemma reseeds_lift {A : Type} (r : result A) : reseeds (lift r) 0.
Proof. intros w x w' H. unfold lift in H. pair_inv H R T. subst w'. lia. Qed.

Lemma reseeds_bind {A B : Type} (m : Py World A) (k : A -> Py World B)
    (n p : nat) :
  reseeds m n -> (forall a, reseeds (k a) p) -> reseeds (bind m k) (n + p).
Proof.
  intros Hm Hk w r w' H. apply bind_ok in H as (a & w1 & H1 & H2).
  rewrite (Hk a w1 r w' H2), (Hm w a w1 H1). lia.
Qed.

Lemma reseeds_draw {A : Type} (step : G -> A * G) : reseeds (draw step) 0.
Proof.
  intros w r w' H. unfold draw in H. destruct (step (rng w)) as [a g].
  pair_inv H R T. subst w'. cbn. lia.
Qed.

Lemma reseeds_draw_list {A : Type} (n : nat) (m : Py World A) :
  reseeds m 0 -> reseeds (draw_list n m) 0.
Proof.
  intros Hm. induction n as [|n IH]; cbn [draw_list].
  - apply reseeds_ret.
  - apply (reseeds_bind _ _ 0 0 Hm). intros x.
    apply (reseeds_bind _ _ 0 0 IH). intros xs. apply reseeds_ret.
Qed.

Lemma reseeds_draw_matrix {A : Type} (r c : nat) (m : Py World A) :
  reseeds m 0 -> reseeds (draw_matrix r c m) 0.
Proof.
  intros Hm. unfold draw_matrix.
  apply (reseeds_bind _ _ 0 0); [now apply reseeds_draw_list, reseeds_draw_list|].
  intros rs. apply reseeds_ret.
Qed.

Lemma reseeds_seed (seed : option Z) :
  reseeds (np_random_seed seed) (seed_reads seed).
Proof.
  intros w r w' H. unfold np_random_seed in H. destruct seed as [k|].
  - destruct (seed_ok k); pair_inv H R T; [subst w'; cbn; lia | discriminate].
  - pair_inv H R T. subst w'. cbn. lia.
Qed.

Lemma reseeds_for_center (N : nat) (t l : F) (m : list Z)
    (random_state : option Z) :
  reseeds (NewVersion.V1_inspired_weights_for_center N t l m random_state)
    (seed_reads random_state).
Proof.
  unfold NewVersion.V1_inspired_weights_for_center.
  replace (seed_reads random_state)
    with (seed_reads random_state + (0 + (0 + (0 + 0)))) by lia.
  apply reseeds_bind; [apply reseeds_seed|]. intros _.
  apply reseeds_bind; [apply reseeds_lift|]. intros K.
  apply reseeds_bind; [apply reseeds_lift|]. intros L.
  apply reseeds_bind; [apply reseeds_draw_list, reseeds_draw|]. intros z.
  apply reseeds_lift.
Qed.

Lemma reseeds_V1_rows (N : nat) (t l : F) (random_state : option Z)
    (centers : list (list Z)) (W : fmatrix) :
  reseeds (NewVersion.V1_rows N t l random_state centers W)
    (length centers * seed_reads random_state).
Proof.
  revert W. induction centers as [|m centers IH]; intros W;
    cbn [NewVersion.V1_rows length].
  - apply reseeds_ret.
  - replace (S (length centers) * seed_reads random_state)
      with (seed_reads random_state
            + (0 + length centers * seed_reads random_state)) by lia.
    apply reseeds_bind; [apply reseeds_for_center|]. intros row.
    apply reseeds_bind; [apply reseeds_lift|]. intros W'. apply IH.
Qed.

(** X15: without a seed, [V1_inspired_weights] reseeds the global generator
    from the operating system once for the centers and once more for every
    row, M + 1 times in all; with an integer seed it never does. *)
Theorem V1_reseeds_for_every_row (M N : nat) (t l : F)
    (random_state : option Z) (w w' : World) (W : fmatrix) :
  NewVersion.V1_inspired_weights M N t l random_state w = (Ok W, w') ->
  entropy_reads w'
  = entropy_reads w
    + match random_state with None => M + 1 | Some _ => 0 end.
Proof.
  unfold NewVersion.V1_inspired_weights. intros H.
  apply bind_ok in H as ([] & w1 & Hseed & H).
  apply bind_ok in H as (centers & w2 & Hc & H).
  assert (HM : nrows centers = M).
  { destruct (randint_returns _ _ _ _ _ _ _ Hc) as [Hs _].
    now shape_eqs Hs Hr Hcols. }
  apply reseeds_V1_rows in H. apply reseeds_seed in Hseed.
  assert (Hd : entropy_reads w2 = entropy_reads w1 + 0).
  { revert Hc. unfold np_random_randint.
    destruct (_ && _); [discriminate|].
    apply reseeds_draw_matrix.
    unfold randint1. apply (reseeds_bind _ _ 0 0); [apply reseeds_draw|].
    intros k. apply reseeds_ret. }
  rewrite H, Hd, Hseed. unfold nrows in HM. rewrite HM.
  destruct random_state; cbn [seed_reads]; lia.
Qed.
End Entropy.

Section BandErrors.
Context {np : NumPy}.

(** When the drawn band does not fit the slice, the generator raises. *)
Lemma haltere_raises (M N : nat) (lowcut highcut : Z)
    (random_state : option Z) (w : World) :
  (forall noise : matrix C,
     shape noise = (M, Z.to_nat (highcut - lowcut)) ->
     NewVersion.assign_squeezed (mat_init M N (fun _ _ => c0))
       (fst (NewVersion.py_slice N lowcut highcut))
       (snd (NewVersion.py_slice N lowcut highcut)) noise
     = Raise ValueError) ->
  fst (NewVersion.haltere_inspired_weights M N lowcut highcut random_state w)
  = Raise ValueError.
Proof.
  intros Hfit.
  assert (Ho : outcome (NewVersion.haltere_inspired_weights M N lowcut
                          highcut random_state)
                 (fun _ => False) (eq ValueError)).
  { unfold NewVersion.haltere_inspired_weights.
    eapply outcome_bind; [apply outcome_seed_any|]. intros _ _.
    eapply outcome_bind
      with (P := fun noise : matrix C =>
                   shape noise = (M, Z.to_nat (highcut - lowcut))).
    { destruct (highcut - lowcut <? 0)%Z; [now apply outcome_raise|].
      eapply outcome_weaken; [apply outcome_complex_normal| |];
        [intros noise [Hs _]; exact Hs | intros e He; exact He]. }
    intros noise Hs. cbv beta in Hs. specialize (Hfit noise Hs).
    destruct (NewVersion.py_slice N lowcut highcut) as [a s].
    cbn [fst snd] in Hfit. rewrite Hfit.
    eapply outcome_bind with (P := fun _ => False);
      [now apply outcome_lift | intros ? []]. }
  specialize (Ho w).
  destruct (fst (NewVersion.haltere_inspired_weights M N lowcut highcut
                   random_state w)) as [W|e]; [contradiction | now subst e].
Qed.

Lemma py_slice_step (N : nat) (lowcut : Z) :
  snd (NewVersion.py_slice N lowcut (lowcut + 1)) <= 1.
Proof.
  unfold NewVersion.py_slice, NewVersion.py_bound. cbn [snd].
  destruct (Z.ltb_spec (lowcut + 1) 0); destruct (Z.ltb_spec lowcut 0); lia.
Qed.

(** X16: a band of one column ([highcut = lowcut + 1]) with two rows or
    more always raises [ValueError]: [squeeze] turns the (M, 1) noise into a
    1-D array of M entries, which does not fit the (M, 1) slice. *)
Theorem haltere_one_column_band (M N : nat) (lowcut : Z)
    (random_state : option Z) (w : World) :
  2 <= M ->
  fst (NewVersion.haltere_inspired_weights M N lowcut (lowcut + 1)
         random_state w)
  = Raise ValueError.
Proof.
  intros HM. apply haltere_raises. intros noise Hs.
  replace (lowcut + 1 - lowcut)%Z with 1%Z in Hs by lia.
  change (Z.to_nat 1) with 1 in Hs. shape_eqs Hs Hr Hc.
  pose proof (py_slice_step N lowcut) as Hstep.
  unfold NewVersion.assign_squeezed. rewrite Hr, Hc.
  destruct (Nat.eqb_spec M 1) as [H1|_]; [lia|]. cbn [andb Nat.eqb].
  destruct (Nat.eqb_spec M (snd (NewVersion.py_slice N lowcut (lowcut + 1))));
    [lia | reflexivity].
Qed.

(** X17: a band that ends before it starts, or that starts inside the N
    columns and ends beyond them, raises [ValueError]: the noise is drawn
    for [highcut - lowcut] columns, the slice is clipped to the array. *)
Theorem haltere_band_outside (M N : nat) (lowcut highcut : Z)
    (random_state : option Z) (w : World) :
  (highcut < lowcut)%Z
  \/ (0 <= lowcut < Z.of_nat N /\ Z.of_nat N < highcut)%Z ->
  fst (NewVersion.haltere_inspired_weights M N lowcut highcut random_state w)
  = Raise ValueError.
Proof.
  intros [Hneg|[Hlo Hhi]].
  - pose proof (outcome_seed_any random_state w) as Hseed.
    unfold NewVersion.haltere_inspired_weights. unfold bind at 1.
    destruct (np_random_seed random_state w) as [[[]|e] w1]; cbn [fst] in *;
      [|now subst e].
    unfold bind at 1. destruct (Z.ltb_spec (highcut - lowcut) 0); [|lia].
    reflexivity.
  - apply haltere_raises. intros noise Hs. shape_eqs Hs Hr Hc.
    unfold NewVersion.assign_squeezed. rewrite Hr, Hc.
    assert (Hslice : snd (NewVersion.py_slice N lowcut highcut)
                     = N - Z.to_nat lowcut).
    { unfold NewVersion.py_slice, NewVersion.py_bound. cbn [snd].
      destruct (Z.ltb_spec highcut 0); destruct (Z.ltb_spec lowcut 0); lia. }
    rewrite Hslice.
    destruct (Nat.eqb_spec (Z.to_nat (highcut - lowcut)) 1) as [H1|_]; [lia|].
    rewrite andb_false_r.
    destruct (Nat.eqb_spec (Z.to_nat (highcut - lowcut))
                (N - Z.to_nat lowcut)); [lia|].
    now destruct (M =? 1).
Qed.
End BandErrors.

Section KernelCenter.
Context {np : NumPy}.

(** X18: a center that has neither one nor two coordinates makes
    [V1_inspired_kernel_matrix] raise [ValueError], whatever N: the center
    does not broadcast against the two columns of the grid. *)
Theorem kernel_center_length (N : nat) (t l : F) (m : list Z) :
  length m <> 1 -> length m <> 2 ->
  NewVersion.V1_inspired_kernel_matrix N t l m = Raise ValueError.
Proof.
  intros H1 H2.
  assert (Hb : forall grid : fmatrix,
            ncols grid = 2 ->
            broadcast2 f0 f0 fsub grid (as_row (map of_int m))
            = Raise ValueError).
  { intros grid Hg. unfold broadcast2. cbn [ncols as_row].
    rewrite length_map, Hg. unfold broadcast_dim at 2.
    destruct (Nat.eqb_spec 2 (length m)); [congruence|]. cbn [Nat.eqb].
    destruct (Nat.eqb_spec (length m) 1); [congruence|].
    now destruct (broadcast_dim _ _). }
  unfold NewVersion.V1_inspired_kernel_matrix.
  cbn [NewVersion.np_meshgrid].
  unfold column_stack. rewrite !length_flatten_init, Nat.eqb_refl.
  set (grid := Mat 2 _). now rewrite (Hb grid eq_refl).
Qed.
End KernelCenter.

Section Refit.
Context {np : NumPy} {sk : Sklearn}.

(** X19: [fit] of the rewrite never reads what an earlier fit stored: on an
    adapter in any state it returns or raises what it does on a freshly
    constructed adapter with the same parameters and classifier, and when it
    returns it leaves the same adapter and the same global random state. *)
Theorem refit_starts_from_scratch (a : NewVersion.RFClassifier) (w : World)
    (X : fmatrix) (y : list Z) :
  fst (NewVersion.fit X y (a, w)) = fst (NewVersion.fit X y (unfitted a, w))
  /\ (fst (NewVersion.fit X y (a, w)) = Ok tt ->
      snd (NewVersion.fit X y (a, w))
      = snd (NewVersion.fit X y (unfitted a, w))).
Proof.
  unfold NewVersion.fit, NewVersion._fit_transform, bind, NewVersion.self_,
    NewVersion.in_world, NewVersion.update, lift, NewVersion.call_clf_fit,
    raise, unfitted.
  cbn [fst snd NewVersion.kwargs NewVersion.init].
  destruct (NewVersion.kwargs a) as [kw|] eqn:Hkw;
    cbn [fst snd NewVersion.kwargs NewVersion.init NewVersion.weight_fun
         NewVersion.width NewVersion.random_state];
    match goal with
    | |- context [NewVersion.weight_fun a ?M ?N ?k ?r w] =>
        destruct (NewVersion.weight_fun a M N k r w) as [[W|e] w1]
    end;
    try (split; [reflexivity | discriminate]);
    cbn -[dot transpose NewVersion.add_bias];
    (destruct (dot f0 fadd fmul X (transpose f0 W)) as [XW|e];
       cbn -[NewVersion.add_bias];
       [|split; [reflexivity | discriminate]]);
    (destruct (NewVersion.add_bias XW (NewVersion.bias a)) as [pre|e];
       cbn; [|split; [reflexivity | discriminate]]);
    (destruct (clf_fit _ y _) as [[[]|e] c]; cbn;
       [|split; [reflexivity | discriminate]]);
    (destruct (clf_coef c); cbn; [|split; [reflexivity | discriminate]]);
    (destruct (clf_intercept c); cbn;
       [split; [reflexivity|]; intros _; rewrite <- Hkw; reflexivity
       |split; [reflexivity | discriminate]]).
Qed.
End Refit.

Section FitReturns.
Context {np : NumPy} {sk : Sklearn}.

(** X20: when the weight function returns an array of shape
    (width, n_features) and the bias is a number or a 1-D array of [width]
    entries (or of one), [_fit_transform] returns, and [fit] returns or
    raises what the inner classifier decides: it raises what the
    classifier's [fit] raises, [AttributeError] if the classifier has no
    [coef_] or [intercept_] afterwards, and returns otherwise. With a
    nonlinearity that keeps shapes, the stored [H_] has shape
    (n_samples, width). *)
Theorem fit_returns (a : NewVersion.RFClassifier) (X : fmatrix) (y : list Z)
    (w : World) :
  outcome (generate_weights a (ncols X))
    (fun W => shape W = (NewVersion.width a, ncols X)) never ->
  bias_fits (NewVersion.width a) (NewVersion.bias a) ->
  exists W H w1,
    generate_weights a (ncols X) w = (Ok W, w1)
    /\ NewVersion._fit_transform X (a, w) = (Ok tt, (projected a W H, w1))
    /\ (shape_preserving (NewVersion.nonlinearity a) ->
        shape H = (nrows X, NewVersion.width a))
    /\ fst (NewVersion.fit X y (a, w))
       = (let (r, c) := clf_fit H y (NewVersion.clf a) in
          _ <~ r ;;
          match clf_coef c, clf_intercept c with
          | Some _, Some _ => Ok tt
          | _, _ => Raise AttributeError
          end).
Proof.
  intros Ho Hb. specialize (Ho w).
  destruct (generate_weights a (ncols X) w) as [[W|e] w1] eqn:Hgen;
    cbn [fst] in Ho; [|contradiction].
  shape_eqs Ho Hr Hc.
  destruct (projection_shape X W (eq_sym Hc)) as (XW & HXW & Hs).
  shape_eqs Hs Hxr Hxc.
  destruct (add_bias_shape XW (NewVersion.bias a)) as (pre & Hpre & Hp).
  { now rewrite Hxc, Hr. }
  exists W, (NewVersion.nonlinearity a pre), w1.
  assert (Hft : NewVersion._fit_transform X (a, w)
                = (Ok tt, (projected a W (NewVersion.nonlinearity a pre), w1))).
  { unfold NewVersion._fit_transform, NewVersion.self_, NewVersion.update,
      NewVersion.in_world, bind, lift.
    unfold generate_weights in Hgen.
    cbn -[dot transpose NewVersion.add_bias].
    destruct (NewVersion.kwargs a); cbn [fst snd]; rewrite Hgen;
      cbn -[dot transpose NewVersion.add_bias]; rewrite HXW;
      cbn -[dot transpose NewVersion.add_bias]; rewrite Hpre; reflexivity. }
  split; [reflexivity|]. split; [exact Hft|]. split.
  - intros Hnl. now rewrite Hnl, Hp, Hs, Hr.
  - unfold NewVersion.fit. unfold bind at 1. rewrite Hft.
    unfold bind at 1, NewVersion.call_clf_fit. cbn [fst snd].
    cbn [projected NewVersion.H_ NewVersion.set_H_ attr NewVersion.clf
         NewVersion.set_b_ NewVersion.set_W_].
    destruct (clf_fit _ y _) as [[[]|e] c]; cbn [fst rbind]; [|reflexivity].
    unfold bind, NewVersion.self_, NewVersion.update, raise. cbn [fst snd].
    cbn [NewVersion.clf NewVersion.set_clf].
    destruct (clf_coef c); cbn [fst]; [|reflexivity].
    destruct (clf_intercept c); reflexivity.
Qed.
End FitReturns.

(** * The results on concrete inputs *)

Import Sample.




Lemma legacy_unfitted_transform_counterexample :
  Legacy.transform legacy_clf X2 <> Raise NotFittedError.
Proof. intros H. vm_compute in H. discriminate. Qed.

Lemma fit_dimension_guard_witness :
  Legacy.fit X2 y1 (legacy_clf, world0)
  = (Raise ValueError, (legacy_clf, world0))
  /\ exists W H,
       generate_weights new_clf (ncols X2) world0 = (Ok W, snd new_projected)
       /\ NewVersion.W_ (fst new_projected) = Some W
       /\ NewVersion.b_ (fst new_projected)
          = Some (NewVersion.bias new_clf)
       /\ NewVersion.H_ (fst new_projected) = Some H
       /\ fst (NewVersion.fit X2 y1 (new_clf, world0))
          = (let (r, c) := clf_fit H y1 (NewVersion.clf new_clf) in
             _ <~ r ;;
             match clf_coef c, clf_intercept c with
             | Some _, Some _ => Ok tt
             | _, _ => Raise AttributeError
             end)
       /\ NewVersion.W_ (fst new_half_fitted) = Some W
       /\ NewVersion.b_ (fst new_half_fitted)
          = Some (NewVersion.bias new_clf)
       /\ NewVersion.H_ (fst new_half_fitted) = Some H
       /\ snd new_half_fitted = snd new_projected.
Proof.
  assert (Hd : nrows X2 <> length y1) by (vm_compute; discriminate).
  assert (Hft : fst (NewVersion._fit_transform X2 (new_clf, world0)) = Ok tt)
    by (vm_compute; reflexivity).
  split.
  - exact (proj1 fit_dimension_guard legacy_clf world0 X2 y1 Hd).
  - exact (proj1 (proj2 fit_dimension_guard) new_clf (fst new_projected)
             world0 (snd new_projected) X2 y1 (run_ok2 _ tt Hft)).
Defined.

(** The rewrite fitted on two samples and one label: the inner classifier
    rejects the pair, but only after the weights were generated and stored
    and the global generator was reseeded and read. *)
Lemma new_fit_mismatch_counterexample :
  ~ (nrows X2 <> length y1 ->
     fst (NewVersion.fit X2 y1 (new_clf, world0)) = Raise ValueError
     /\ snd (NewVersion.fit X2 y1 (new_clf, world0)) = (new_clf, world0)).
Proof.
  intros H. destruct H as [_ Hs]; [vm_compute; discriminate|].
  apply (f_equal (fun s => NewVersion.W_ (fst s))) in Hs.
  vm_compute in Hs. discriminate.
Qed.

Lemma fit_then_transform_witness :
  exists H,
    NewVersion.H_ (fst new_fitted) = Some H
    /\ NewVersion.transform (fst new_fitted) X2 = Ok H.
Proof.
  assert (Hfit : fst (NewVersion.fit X2 y2 (new_clf, world0)) = Ok tt)
    by (vm_compute; reflexivity).
  exact (proj1 fit_then_transform new_clf (fst new_fitted) world0
           (snd new_fitted) X2 y2 (run_ok2 _ tt Hfit)).
Defined.

Lemma legacy_second_fit_fails_witness :
  Legacy.fit X2 y2 (fst legacy_fitted, snd legacy_fitted)
  = (Raise TypeError, (fst legacy_fitted, snd legacy_fitted)).
Proof.
  assert (Hfit : fst (Legacy.fit X2 y2 (legacy_clf, world0)) = Ok tt)
    by (vm_compute; reflexivity).
  exact (legacy_second_fit_fails legacy_clf (fst legacy_fitted) world0
           (snd legacy_fitted) X2 y2 (run_ok2 _ tt Hfit) X2 y2
           (snd legacy_fitted) eq_refl).
Defined.

Lemma identity_generator_witness :
  exists W w',
    Legacy.random_feature_matrix 3 3 Legacy.WNone (Some 42%Z) world0
    = (Ok W, w')
    /\ shape W = (3, 3)
    /\ forall i j, i < 3 -> j < 3 ->
         mat_get f0 W i j = if i =? j then f1 else f0.
Proof. apply identity_generator. reflexivity. Defined.

Lemma V1_rejects_nonsquare_witness :
  fst (NewVersion.V1_inspired_weights 1 2 1%float 1%float (Some 0%Z) world0)
  = Raise ValueError.
Proof. apply V1_rejects_nonsquare; [lia | cbn; lia]. Defined.

(** Two features are not a perfect square: nothing is returned. *)
Lemma V1_nonsquare_counterexample :
  ~ (exists W w',
       NewVersion.V1_inspired_weights 1 2 1%float 1%float (Some 0%Z) world0
       = (Ok W, w')).
Proof.
  intros (W & w' & H). apply (f_equal fst) in H. cbn [fst] in H.
  vm_compute in H. discriminate.
Qed.

Lemma V1_rows_determined_by_center_witness :
  exists (centers : matrix Z) (z : list F),
    (forall w0,
       fst (np_random_randint 0 (Z.of_nat (NewVersion.sqrt_floor 4)) 2 2
              (seeded 9 w0)) = Ok centers)
    /\ (forall w0, fst (np_random_randn1 4 (seeded 9 w0)) = Ok z)
    /\ nrows centers = 2 /\ nrows V1_sample = 2
    /\ (forall i, i < 2 ->
          exists K L,
            NewVersion.V1_inspired_kernel_matrix 4 5%float 3%float
              (mat_row centers i) = Ok K
            /\ la_cholesky K = Ok L
            /\ dot_vec f0 fadd fmul L z = Ok (mat_row V1_sample i))
    /\ (forall i j, i < 2 -> j < 2 ->
          mat_row centers i = mat_row centers j ->
          mat_row V1_sample i = mat_row V1_sample j).
Proof.
  assert (Hrun : fst V1_run = Ok V1_sample) by (vm_compute; reflexivity).
  exact (V1_rows_determined_by_center 2 4 5%float 3%float 9 world0
           (snd V1_run) V1_sample (run_ok V1_run V1_sample Hrun)).
Defined.

(** The two rows of the sample have the same center and are equal. *)
Example V1_sample_rows :
  fst (np_random_randint 0 2 2 2 (seeded 9 world0))
  = Ok (Mat 2 [[0; 1]; [0; 1]]%Z)
  /\ nrows V1_sample = 2
  /\ mat_row V1_sample 0 = mat_row V1_sample 1.
Proof. repeat split; vm_compute; reflexivity. Qed.

(** ** The further properties on concrete inputs *)

(** What the fitted adapter of the rewrite holds. *)
Lemma new_fitted_attributes :
  NewVersion.W_ (fst new_fitted) = Some new_W
  /\ NewVersion.b_ (fst new_fitted) = Some (NewVersion.BiasScalar 2%float)
  /\ NewVersion.nonlinearity (fst new_fitted)
     = (fun x => NewVersion.relu x 0%float).
Proof. repeat split; vm_compute; reflexivity. Defined.

Lemma transform_shape_witness :
  exists H,
    NewVersion.transform (fst new_fitted) X2 = Ok H
    /\ shape H = (nrows X2, nrows new_W).
Proof.
  destruct new_fitted_attributes as (HW & Hb & Hnl).
  assert (Hs : shape_preserving (NewVersion.nonlinearity (fst new_fitted))).
  { rewrite Hnl. apply relu_shape_preserving. }
  assert (Hc : ncols X2 = ncols new_W) by (vm_compute; reflexivity).
  exact (transform_shape (fst new_fitted) new_W
           (NewVersion.BiasScalar 2%float) X2 HW Hb Hs Hc I).
Defined.

Lemma bias_length_mismatch_witness :
  NewVersion.transform (fst biased_fitted) X2 = Raise ValueError.
Proof.
  assert (HW : NewVersion.W_ (fst biased_fitted) = Some new_W)
    by (vm_compute; reflexivity).
  assert (Hb : NewVersion.b_ (fst biased_fitted)
               = Some (NewVersion.BiasArray [1%float; 2%float; 3%float]))
    by (vm_compute; reflexivity).
  assert (Hc : ncols X2 = ncols new_W) by (vm_compute; reflexivity).
  assert (Hl : length [1%float; 2%float; 3%float] <> nrows new_W)
    by (vm_compute; discriminate).
  assert (H1 : length [1%float; 2%float; 3%float] <> 1) by discriminate.
  assert (Hw : nrows new_W <> 1) by (vm_compute; discriminate).
  exact (proj1 (bias_length_mismatch (fst biased_fitted) new_W
                  [1%float; 2%float; 3%float] X2 HW Hb Hc Hl H1) Hw).
Defined.

Lemma new_feature_count_mismatch_witness :
  NewVersion.transform (fst new_fitted) X1 = Raise ValueError
  /\ NewVersion.score (fst new_fitted) X1 y1 = Raise ValueError.
Proof.
  destruct new_fitted_attributes as (HW & Hb & _).
  assert (Hc : ncols X1 <> ncols new_W) by (vm_compute; discriminate).
  exact (new_feature_count_mismatch (fst new_fitted) new_W
           (NewVersion.BiasScalar 2%float) X1 y1 HW Hb Hc).
Defined.

Lemma legacy_feature_count_mismatch_witness :
  Legacy.transform (fst legacy_fitted) X1 = Raise ValueError
  /\ Legacy.predict (fst legacy_fitted) X1 = Raise ValueError
  /\ Legacy.score (fst legacy_fitted) X1 y1 = Raise ValueError.
Proof.
  assert (HW : Legacy.W_ (fst legacy_fitted) = Some legacy_W)
    by (vm_compute; reflexivity).
  assert (Hc : ncols X1 <> nrows legacy_W) by (vm_compute; discriminate).
  exact (legacy_feature_count_mismatch (fst legacy_fitted) legacy_W X1 y1
           HW Hc).
Defined.

Lemma fitted_adapter_is_usable_witness :
  NewVersion.coef_ (fst new_fitted) = clf_coef (NewVersion.clf (fst new_fitted))
  /\ NewVersion.intercept_ (fst new_fitted)
     = clf_intercept (NewVersion.clf (fst new_fitted))
  /\ (forall X' y',
        NewVersion.score (fst new_fitted) X' y'
        = (H <~ NewVersion.transform (fst new_fitted) X' ;;
           clf_score (NewVersion.clf (fst new_fitted)) H y'))
  /\ (forall X' e,
        NewVersion.transform (fst new_fitted) X' = Raise e ->
        e = ValueError).
Proof.
  assert (Hfit : fst (NewVersion.fit X2 y2 (new_clf, world0)) = Ok tt)
    by (vm_compute; reflexivity).
  exact (fitted_adapter_is_usable new_clf (fst new_fitted) world0
           (snd new_fitted) X2 y2 (run_ok2 _ tt Hfit)).
Defined.

Lemma failed_fit_leaves_half_fitted_witness :
  exists H,
    NewVersion.H_ (fst new_half_fitted) = Some H
    /\ NewVersion.transform (fst new_half_fitted) X2 = Ok H
    /\ forall y', NewVersion.score (fst new_half_fitted) X2 y'
                  = Raise NotFittedError.
Proof.
  assert (Hft : fst (NewVersion._fit_transform X2 (new_clf, world0)) = Ok tt)
    by (vm_compute; reflexivity).
  assert (Hraise : fst (NewVersion.fit X2 y1 (new_clf, world0))
                   = Raise ValueError) by (vm_compute; reflexivity).
  exact (failed_fit_leaves_half_fitted new_clf _ world0 _ X2 y1 ValueError
           eq_refl (run_ok2 _ tt Hft) Hraise).
Defined.

Lemma clf_wrapper_after_fit_witness :
  exists H,
    NewVersion.H_ (fst new_fitted) = Some H
    /\ NewVersion.clf_wrapper new_params X2 y2 X2 y2 true world0
       = (test_error <~ NewVersion.score (fst new_fitted) X2 y2 ;;
          train_error <~ clf_score (NewVersion.clf (fst new_fitted)) H y2 ;;
          Ok (train_error, test_error, Some (fst new_fitted)),
          snd new_fitted).
Proof.
  assert (Hfit : fst (NewVersion.fit X2 y2
                        (NewVersion.construct new_params, world0)) = Ok tt)
    by (vm_compute; reflexivity).
  exact (clf_wrapper_after_fit new_params X2 y2 X2 y2 true world0
           (snd new_fitted) (fst new_fitted) (run_ok2 _ tt Hfit)).
Defined.

Lemma seeded_fit_is_reproducible_witness :
  fst (NewVersion.fit X2 y2 (new_clf, world0))
  = fst (NewVersion.fit X2 y2 (new_clf, world1))
  /\ fst (snd (NewVersion.fit X2 y2 (new_clf, world0)))
     = fst (snd (NewVersion.fit X2 y2 (new_clf, world1))).
Proof.
  exact (seeded_fit_is_reproducible new_clf 22 X2 y2 world0 world1 eq_refl
           (or_introl eq_refl)).
Defined.

Lemma legacy_seeded_fit_is_reproducible_witness :
  fst (Legacy.fit X2 y2 (legacy_clf, world0))
  = fst (Legacy.fit X2 y2 (legacy_clf, world1))
  /\ fst (snd (Legacy.fit X2 y2 (legacy_clf, world0)))
     = fst (snd (Legacy.fit X2 y2 (legacy_clf, world1))).
Proof.
  exact (legacy_seeded_fit_is_reproducible legacy_clf 42 X2 y2 world0 world1
           eq_refl eq_refl I).
Defined.

Lemma invalid_seed_rejected_witness :
  NewVersion.classical_weights 2 3 (Some (-1)%Z) world0
  = (Raise ValueError, world0)
  /\ Legacy.random_feature_matrix 2 3 (Legacy.WStr "white noise")
       (Some (2 ^ 32)%Z) world0
     = (Raise ValueError, world0).
Proof.
  split.
  - apply (invalid_seed_rejected (-1) 2 3 world0). left. lia.
  - apply (invalid_seed_rejected (2 ^ 32) 2 3 world0). right. lia.
Defined.

Lemma unseeded_matrix_is_a_seeded_one_witness :
  exists k,
    (0 <= k < 1000)%Z
    /\ forall w0,
         fst (Legacy.random_feature_matrix 2 3 (Legacy.WStr "white noise")
                None world0)
         = fst (Legacy.random_feature_matrix 2 3 (Legacy.WStr "white noise")
                  (Some k) w0).
Proof.
  exact (unseeded_matrix_is_a_seeded_one 2 3 (Legacy.WStr "white noise")
           world0 I).
Defined.

Lemma unknown_weights_string_witness :
  exists k w',
    Legacy.random_feature_matrix 2 3 (Legacy.WStr "gaussian") (Some 42%Z)
      world0 = (Raise TypeError, w')
    /\ rng w' = init_by_seed k /\ k = 42%Z.
Proof.
  apply (unknown_weights_string 2 3 "gaussian" (Some 42%Z) world0);
    [discriminate | discriminate | reflexivity].
Defined.

Lemma legacy_fit_stores_its_seed_witness :
  exists k W,
    Legacy.seed (fst legacy_fitted) = Some k
    /\ Legacy.W_ (fst legacy_fitted) = Some W
    /\ k = 42%Z
    /\ forall w0,
         fst (Legacy.random_feature_matrix 2 3 (Legacy.WStr "white noise")
                (Some k) w0) = Ok W.
Proof.
  assert (Hfit : fst (Legacy.fit X2 y2 (legacy_clf, world0)) = Ok tt)
    by (vm_compute; reflexivity).
  exact (legacy_fit_stores_its_seed legacy_clf (fst legacy_fitted) world0
           (snd legacy_fitted) X2 y2 (run_ok2 _ tt Hfit) eq_refl I).
Defined.

Lemma V1_reseeds_for_every_row_witness :
  entropy_reads (snd V1_unseeded_run) = 0 + (2 + 1)
  /\ entropy_reads (snd V1_run) = 0 + 0.
Proof.
  assert (H1 : exists W, fst V1_unseeded_run = Ok W)
    by (vm_compute; eexists; reflexivity).
  assert (H2 : fst V1_run = Ok V1_sample) by (vm_compute; reflexivity).
  destruct H1 as [W H1]. split.
  - exact (V1_reseeds_for_every_row 2 4 5%float 3%float None world0 _ W
             (run_ok V1_unseeded_run W H1)).
  - exact (V1_reseeds_for_every_row 2 4 5%float 3%float (Some 9%Z) world0 _
             V1_sample (run_ok V1_run V1_sample H2)).
Defined.

Lemma haltere_one_column_band_witness :
  fst (NewVersion.haltere_inspired_weights 2 4 1 (1 + 1) (Some 3%Z) world0)
  = Raise ValueError.
Proof. apply haltere_one_column_band. lia. Defined.

Lemma haltere_band_outside_witness :
  fst (NewVersion.haltere_inspired_weights 2 4 1 6 (Some 3%Z) world0)
  = Raise ValueError.
Proof. apply haltere_band_outside. right. lia. Defined.

Lemma kernel_center_length_witness :
  NewVersion.V1_inspired_kernel_matrix 4 5%float 3%float [0; 1; 1]%Z
  = Raise ValueError.
Proof. apply kernel_center_length; discriminate. Defined.

Lemma seeded_generators_overwrite_global_state_witness :
  rng (snd (NewVersion.classical_weights 2 3 (Some 22%Z) world1))
  = rng (snd (NewVersion.classical_weights 2 3 (Some 22%Z) world0)).
Proof.
  assert (H : exists W,
            fst (NewVersion.classical_weights 2 3 (Some 22%Z) world0) = Ok W)
    by (vm_compute; eexists; reflexivity).
  destruct H as [W H].
  exact (proj1 (seeded_generators_overwrite_global_state 22 2 3) world0
           world1 W _ (run_ok _ W H)).
Defined.

Lemma refit_starts_from_scratch_witness :
  snd (NewVersion.fit X2 y2 (fst new_fitted, snd new_fitted))
  = snd (NewVersion.fit X2 y2 (unfitted (fst new_fitted), snd new_fitted)).
Proof.
  assert (H : fst (NewVersion.fit X2 y2 (fst new_fitted, snd new_fitted))
              = Ok tt) by (vm_compute; reflexivity).
  exact (proj2 (refit_starts_from_scratch (fst new_fitted) (snd new_fitted)
                  X2 y2) H).
Defined.

Lemma fit_returns_witness :
  exists W H w1,
    generate_weights new_clf (ncols X2) world0 = (Ok W, w1)
    /\ NewVersion._fit_transform X2 (new_clf, world0)
       = (Ok tt, (projected new_clf W H, w1))
    /\ (shape_preserving (NewVersion.nonlinearity new_clf) ->
        shape H = (nrows X2, NewVersion.width new_clf))
    /\ fst (NewVersion.fit X2 y2 (new_clf, world0))
       = (let (r, c) := clf_fit H y2 (NewVersion.clf new_clf) in
          _ <~ r ;;
          match clf_coef c, clf_intercept c with
          | Some _, Some _ => Ok tt
          | _, _ => Raise AttributeError
          end).
Proof.
  exact (fit_returns new_clf X2 y2 world0
           (classical_weights_shape 2 3 (Some 22%Z) eq_refl) I).
Defined.
